(** * geo_data_pipeline: a shallow embedding of the three luigi tasks

    The development follows [geo_data_pipeline.py]:
    - the Python [str] methods the code calls ([startswith], [endswith],
      [strip], [splitlines]);
    - exceptions as an error monad;
    - the file system as a tree of directories and regular files, with
      [os.makedirs], [open(..., "wb")], [os.listdir], [os.walk], ...;
    - the libraries as collaborators: [requests.get], [tarfile], [gzip]
      and the two pandas calls [read_csv] and [to_csv] are fields of a
      record the tasks are run with; [DataFrame.drop] is defined on the
      frame; a reference instance of pandas on plain tab-separated text
      serves the concrete runs;
    - the three tasks, one module per class, and luigi's scheduling of
      them along [requires].

    Text and bytes are both [string] (8-bit characters): the model covers
    the range where a Python [str] and its UTF-8 encoding coincide. *)

From Stdlib Require Import List String Ascii Bool Arith NArith ZArith Lia.
From Stdlib Require Import DecimalString.
Import ListNotations.
Open Scope list_scope.
Open Scope string_scope.

(** ** Exceptions *)

Inductive exn : Type :=
| DownloadFailed (status_code : Z)   (* Exception("Failed to download ...") *)
| EmptyDataError                     (* pandas.errors.EmptyDataError *)
| ParserError                        (* pandas.errors.ParserError *)
| FileExistsError
| FileNotFoundError
| NotADirectoryError
| IsADirectoryError
| ReadError                          (* tarfile.ReadError *)
| BadGzipFile                        (* gzip.BadGzipFile / UnicodeDecodeError *)
| ConnectionError                    (* requests.exceptions.ConnectionError *)
| UnfulfilledDependency.             (* luigi: RuntimeError at run time *)

Inductive result (A : Type) : Type :=
| Ok (a : A)
| Raise (e : exn).

Arguments Ok {A} a.
Arguments Raise {A} e.

Definition bind {A B : Type} (m : result A) (k : A -> result B) : result B :=
  match m with
  | Ok a => k a
  | Raise e => Raise e
  end.

Notation "x <- m ;; k" := (bind m (fun x => k))
  (at level 61, m at next level, right associativity).

(** ** Python [str] *)

Definition LF : ascii := ascii_of_nat 10.
Definition CR : ascii := ascii_of_nat 13.
Definition TAB : ascii := ascii_of_nat 9.

Definition nl : string := String LF EmptyString.
Definition tab : string := String TAB EmptyString.

(** [bool(s)] for a [str]: the empty string is falsy. *)
Definition str_truthy (s : string) : bool :=
  match s with
  | EmptyString => false
  | String _ _ => true
  end.

(** [s.startswith(p)] *)
Fixpoint startswith (p s : string) : bool :=
  match p, s with
  | EmptyString, _ => true
  | String a p', String b s' => Ascii.eqb a b && startswith p' s'
  | String _ _, EmptyString => false
  end.

Fixpoint str_rev_onto (s acc : string) : string :=
  match s with
  | EmptyString => acc
  | String c s' => str_rev_onto s' (String c acc)
  end.

Definition str_rev (s : string) : string := str_rev_onto s EmptyString.

(** [s.endswith(p)] *)
Definition endswith (p s : string) : bool :=
  startswith (str_rev p) (str_rev s).

Fixpoint char_in (c : ascii) (chars : string) : bool :=
  match chars with
  | EmptyString => false
  | String d chars' => Ascii.eqb c d || char_in c chars'
  end.

Fixpoint lstrip (chars s : string) : string :=
  match s with
  | EmptyString => EmptyString
  | String c s' => if char_in c chars then lstrip chars s' else s
  end.

Fixpoint rstrip (chars s : string) : string :=
  match s with
  | EmptyString => EmptyString
  | String c s' =>
      match rstrip chars s' with
      | EmptyString => if char_in c chars then EmptyString else String c EmptyString
      | String d t => String c (String d t)
      end
  end.

(** [s.strip(chars)] *)
Definition strip (chars s : string) : string := rstrip chars (lstrip chars s).

(** The line boundaries of [str.splitlines] below code point 256:
    LF, VT, FF, CR, FS, GS, RS and NEL. *)
Definition is_linebreak (c : ascii) : bool :=
  let n := nat_of_ascii c in
  existsb (Nat.eqb n) [10; 11; 12; 13; 28; 29; 30; 133]%nat.

(** [s.splitlines()]: [line] is the text read since the last boundary, in
    reverse.  A boundary closes the line (CR LF counts once); the text
    after the last boundary is a line only when it is not empty. *)
Fixpoint splitlines_from (line : string) (s : string) : list string :=
  match s with
  | EmptyString =>
      match line with
      | EmptyString => []
      | String _ _ => [str_rev line]
      end
  | String c rest =>
      if is_linebreak c then
        str_rev line ::
          match rest with
          | String d rest' =>
              if Ascii.eqb c CR && Ascii.eqb d LF
              then splitlines_from EmptyString rest'
              else splitlines_from EmptyString rest
          | EmptyString => splitlines_from EmptyString rest
          end
      else splitlines_from (String c line) rest
  end.

Definition splitlines (s : string) : list string :=
  splitlines_from EmptyString s.

(** [sep.join(parts)] *)
Fixpoint str_join (sep : string) (parts : list string) : string :=
  match parts with
  | [] => EmptyString
  | [p] => p
  | p :: ps => p ++ sep ++ str_join sep ps
  end.

(** ["".join(parts)] *)
Fixpoint str_concat (parts : list string) : string :=
  match parts with
  | [] => EmptyString
  | p :: ps => p ++ str_concat ps
  end.

(** [s.split(sep)] for a one-character separator. *)
Fixpoint split_on (sep : ascii) (field : string) (s : string) : list string :=
  match s with
  | EmptyString => [str_rev field]
  | String c rest =>
      if Ascii.eqb c sep
      then str_rev field :: split_on sep EmptyString rest
      else split_on sep (String c field) rest
  end.

(** ** The file system

    A tree of regular files and directories.  [st_size] of a directory is
    whatever the file system reports for it, so it is part of the state.
    A path is the list of its components below the working directory;
    [os.path.join(p, name)] is [p ++ [name]] (names are taken as single
    components: a name holding a slash, [.] or [..] is outside the model). *)

#[warnings="-register-all"]
Inductive node : Type :=
| File (data : string)
| Dir (dir_size : N) (entries : list (string * node)).

Definition path : Type := list string.

Definition os_path_join (p : path) (name : string) : path := (p ++ [name])%list.

Definition is_dir (n : node) : bool :=
  match n with Dir _ _ => true | File _ => false end.

Definition st_size (n : node) : N :=
  match n with
  | File data => N.of_nat (String.length data)
  | Dir sz _ => sz
  end.

Fixpoint assoc (name : string) (es : list (string * node)) : option node :=
  match es with
  | [] => None
  | (k, v) :: es' => if String.eqb name k then Some v else assoc name es'
  end.

(** Replace the entry [name], or add it at the end. *)
Fixpoint put (name : string) (v : node) (es : list (string * node))
  : list (string * node) :=
  match es with
  | [] => [(name, v)]
  | (k, w) :: es' =>
      if String.eqb name k then (k, v) :: es' else (k, w) :: put name v es'
  end.

Fixpoint del (name : string) (es : list (string * node))
  : list (string * node) :=
  match es with
  | [] => []
  | (k, w) :: es' =>
      if String.eqb name k then es' else (k, w) :: del name es'
  end.

Fixpoint lookup (n : node) (p : path) : option node :=
  match p with
  | [] => Some n
  | name :: p' =>
      match n with
      | File _ => None
      | Dir _ es =>
          match assoc name es with
          | Some c => lookup c p'
          | None => None
          end
      end
  end.

Definition os_path_exists (fs : node) (p : path) : bool :=
  match lookup fs p with Some _ => true | None => false end.

Definition os_path_isfile (fs : node) (p : path) : bool :=
  match lookup fs p with Some (File _) => true | _ => false end.

Definition os_path_isdir (fs : node) (p : path) : bool :=
  match lookup fs p with Some (Dir _ _) => true | _ => false end.

(** [os.stat(p).st_size] and [os.path.getsize(p)] *)
Definition os_path_getsize (fs : node) (p : path) : result N :=
  match lookup fs p with
  | Some n => Ok (st_size n)
  | None => Raise FileNotFoundError
  end.

(** [os.listdir(p)] *)
Definition os_listdir (fs : node) (p : path) : result (list string) :=
  match lookup fs p with
  | Some (Dir _ es) => Ok (map fst es)
  | Some (File _) => Raise NotADirectoryError
  | None => Raise FileNotFoundError
  end.

(** Size reported for a directory that [mkdir] has just made (ext4's
    value; nothing below depends on it). *)
Definition mkdir_st_size : N := 4096%N.

(** [os.makedirs(p, exist_ok=True)] *)
Fixpoint os_makedirs (n : node) (p : path) : result node :=
  match p with
  | [] =>
      match n with
      | Dir _ _ => Ok n
      | File _ => Raise FileExistsError
      end
  | name :: p' =>
      match n with
      | File _ => Raise NotADirectoryError
      | Dir sz es =>
          match assoc name es with
          | Some c =>
              c' <- os_makedirs c p' ;; Ok (Dir sz (put name c' es))
          | None =>
              c' <- os_makedirs (Dir mkdir_st_size []) p' ;;
              Ok (Dir sz (put name c' es))
          end
      end
  end.

(** [with open(p, "wb") as f: f.write(data)], also the write of
    [DataFrame.to_csv(p)] and of [tar.extract] for a regular member:
    the parent must be a directory, the target must not be one. *)
Fixpoint write_file (n : node) (p : path) (data : string) : result node :=
  match p with
  | [] =>
      match n with
      | File _ => Ok (File data)
      | Dir _ _ => Raise IsADirectoryError
      end
  | name :: p' =>
      match n with
      | File _ => Raise NotADirectoryError
      | Dir sz es =>
          match assoc name es with
          | Some c =>
              c' <- write_file c p' data ;; Ok (Dir sz (put name c' es))
          | None =>
              match p' with
              | [] => Ok (Dir sz (put name (File data) es))
              | _ :: _ => Raise FileNotFoundError
              end
          end
      end
  end.

(** [open(p, "rb").read()] *)
Definition read_file (fs : node) (p : path) : result string :=
  match lookup fs p with
  | Some (File data) => Ok data
  | Some (Dir _ _) => Raise IsADirectoryError
  | None => Raise FileNotFoundError
  end.

(** [os.remove(p)] *)
Fixpoint os_remove (n : node) (p : path) : result node :=
  match p with
  | [] => Raise IsADirectoryError
  | name :: p' =>
      match n with
      | File _ => Raise NotADirectoryError
      | Dir sz es =>
          match assoc name es with
          | None => Raise FileNotFoundError
          | Some c =>
              match p' with
              | [] =>
                  match c with
                  | File _ => Ok (Dir sz (del name es))
                  | Dir _ _ => Raise IsADirectoryError
                  end
              | _ :: _ =>
                  c' <- os_remove c p' ;; Ok (Dir sz (put name c' es))
              end
          end
      end
  end.

Definition dirnames (es : list (string * node)) : list string :=
  map fst (filter (fun e => is_dir (snd e)) es).

Definition filenames (es : list (string * node)) : list string :=
  map fst (filter (fun e => negb (is_dir (snd e))) es).

(** [os.walk(top)], top-down: the triple of [top], then the walk of each
    of its subdirectories.  Nothing is yielded for what is not a
    directory. *)
Fixpoint walk_node (top : path) (n : node)
  : list (path * list string * list string) :=
  match n with
  | File _ => []
  | Dir _ es =>
      (top, dirnames es, filenames es)
        :: flat_map (fun e => walk_node (os_path_join top (fst e)) (snd e)) es
  end.

Definition os_walk (fs : node) (top : path)
  : list (path * list string * list string) :=
  match lookup fs top with
  | Some n => walk_node top n
  | None => []
  end.

(** No directory lists a name twice. *)
Fixpoint unique_names (names : list string) : bool :=
  match names with
  | [] => true
  | x :: xs => negb (existsb (String.eqb x) xs) && unique_names xs
  end.

Fixpoint wf_node (n : node) : bool :=
  match n with
  | File _ => true
  | Dir _ es =>
      unique_names (map fst es) && forallb (fun e => wf_node (snd e)) es
  end.

(** [x in xs] for a list of [str] *)
Definition str_in (x : string) (xs : list string) : bool :=
  existsb (String.eqb x) xs.

(** ** pandas

    A [DataFrame] is its column labels and its rows; a cell is the text
    pandas prints for it.  [read_csv(buf, sep="\t", header=h)] and
    [df.to_csv(sep="\t", index=False)] are collaborators. *)

Inductive header_arg : Type :=
| HeaderNone      (* header=None *)
| HeaderInfer.    (* header="infer", the default *)

Inductive label : Type :=
| LInt (i : nat)      (* the labels 0, 1, ... that header=None gives *)
| LStr (s : string).

Record DataFrame : Type := mkDataFrame {
  columns : list label;
  rows : list (list string)
}.

Record pandas : Type := mkPandas {
  read_csv : header_arg -> string -> result DataFrame;
  to_csv : DataFrame -> string
}.

Definition label_in (l : label) (names : list string) : bool :=
  match l with
  | LStr s => str_in s names
  | LInt _ => false
  end.

(** Keep the items of [xs] whose flag in [keep] is set. *)
Fixpoint select {A : Type} (keep : list bool) (xs : list A) : list A :=
  match keep, xs with
  | true :: keep', x :: xs' => x :: select keep' xs'
  | false :: keep', _ :: xs' => select keep' xs'
  | _, _ => []
  end.

(** [df.drop(columns=names, errors="ignore")] *)
Definition drop (names : list string) (df : DataFrame) : DataFrame :=
  let keep := map (fun l => negb (label_in l names)) (columns df) in
  {| columns := select keep (columns df);
     rows := map (select keep) (rows df) |}.

(** *** A reference instance

    Tab-separated text without quoting: lines end in LF, empty lines are
    skipped, a buffer without any line raises [EmptyDataError], a row
    longer than the first line raises [ParserError], a shorter one is
    padded with missing values (written back as empty fields).  Cells keep
    their text, so the instance is exact on rectangular tables of plain
    words and canonical decimal integers with distinct column names;
    dtype inference, quoting and name mangling are not modelled. *)

Definition string_of_nat (n : nat) : string :=
  NilZero.string_of_uint (Nat.to_uint n).

Definition label_str (l : label) : string :=
  match l with
  | LInt i => string_of_nat i
  | LStr s => s
  end.

Definition csv_lines (buf : string) : list string :=
  filter str_truthy (split_on LF EmptyString buf).

Definition fields (line : string) : list string :=
  split_on TAB EmptyString line.

Fixpoint pad (width : nat) (row : list string) : list string :=
  match width with
  | O => []
  | S w =>
      match row with
      | [] => EmptyString :: pad w []
      | c :: row' => c :: pad w row'
      end
  end.

Definition frame_of (cols : list label) (lines : list string)
  : result DataFrame :=
  let rs := map fields lines in
  if forallb (fun r => List.length r <=? List.length cols)%nat rs
  then Ok {| columns := cols; rows := map (pad (List.length cols)) rs |}
  else Raise ParserError.

Definition ref_read_csv (h : header_arg) (buf : string) : result DataFrame :=
  match csv_lines buf with
  | [] => Raise EmptyDataError
  | first :: rest =>
      match h with
      | HeaderInfer => frame_of (map LStr (fields first)) rest
      | HeaderNone =>
          frame_of (map LInt (seq 0 (List.length (fields first)))) (first :: rest)
      end
  end.

Definition csv_line (cells : list string) : string :=
  str_join tab cells ++ nl.

Definition ref_to_csv (df : DataFrame) : string :=
  str_concat (csv_line (map label_str (columns df)) :: map csv_line (rows df)).

Definition ref_pandas : pandas :=
  {| read_csv := ref_read_csv; to_csv := ref_to_csv |}.

(** ** The other collaborators

    [requests.get(url)] answers with a status code and a body, or raises;
    [tarfile.open(p).getmembers()] lists the members of a container (here
    its regular files, with their bytes); [gzip.open(p).read().decode()]
    gives the text of a compressed payload. *)

Record Response : Type := mkResponse {
  status_code : Z;
  content : string
}.

(** [member_name] is [member.name]. *)
Record TarInfo : Type := mkTarInfo {
  member_name : string;
  member_data : string
}.

Record world : Type := mkWorld {
  requests_get : string -> result Response;
  tarfile_getmembers : string -> result (list TarInfo);
  gzip_read_decode : string -> result string;
  pd : pandas
}.

(** [os.path.basename(s)]: what follows the last slash. *)
Definition os_path_basename (s : string) : string :=
  last (split_on "/"%char EmptyString s) EmptyString.

Definition path_str (p : path) : string := str_join "/" p.

(** ** Task parameters, shared by the three classes *)

Record Params : Type := mkParams {
  data_directory : path;
  dataset_name : string;
  dataset_series : string
}.

Definition DATA_DIR : path := ["data"].
Definition DATASET_NAME : string := "GSE68849".
Definition DATASET_SERIES : string := "GSE68nnn".

Definition default_params : Params :=
  {| data_directory := DATA_DIR;
     dataset_name := DATASET_NAME;
     dataset_series := DATASET_SERIES |}.

(** ** ExtractAndProcessGeoDataset._process_content *)

Module Parser.

(** The locals of [_process_content], with the file system it writes to.
    [current_key] is [None] or a [str]; [string_io] is the text of the
    current [io.StringIO]. *)
Record state : Type := mkState {
  data_frames : list (string * DataFrame);
  current_key : option string;
  string_io : string;
  fs : node
}.

(** [if current_key:] is false for [None] and for the empty string. *)
Definition key_open (k : option string) : option string :=
  match k with
  | Some s => if str_truthy s then Some s else None
  | None => None
  end.

Fixpoint dict_set {V : Type} (k : string) (v : V) (d : list (string * V))
  : list (string * V) :=
  match d with
  | [] => [(k, v)]
  | (k', v') :: d' =>
      if String.eqb k k' then (k', v) :: d' else (k', v') :: dict_set k v d'
  end.

Section WithPandas.

Variable pd : pandas.
Variable output_dir : path.

(** Lines 114-120 and 127-130: read the buffer from its start, keep the
    frame under the key, write it to [<output_dir>/<key>.tsv]. *)
Definition materialize (header : header_arg) (key : string) (st : state)
  : result state :=
  df <- read_csv pd header (string_io st) ;;
  let output_path := os_path_join output_dir (key ++ ".tsv") in
  fs' <- write_file (fs st) output_path (to_csv pd df) ;;
  Ok {| data_frames := dict_set key df (data_frames st);
        current_key := current_key st;
        string_io := string_io st;
        fs := fs' |}.

(** One iteration of the loop of lines 111-125. *)
Definition step (st : state) (line : string) : result state :=
  if startswith "[" line then
    st1 <- match key_open (current_key st) with
           | Some key =>
               let header :=
                 if String.eqb key "Heading" then HeaderNone else HeaderInfer in
               materialize header key st
           | None => Ok st
           end ;;
    Ok {| data_frames := data_frames st1;
          current_key := Some (strip ("[]" ++ nl) line);
          string_io := EmptyString;
          fs := fs st1 |}
  else
    match key_open (current_key st) with
    | Some _ =>
        Ok {| data_frames := data_frames st;
              current_key := current_key st;
              string_io := string_io st ++ line ++ nl;
              fs := fs st |}
    | None => Ok st
    end.

Fixpoint scan (st : state) (lines : list string) : result state :=
  match lines with
  | [] => Ok st
  | line :: lines' => st' <- step st line ;; scan st' lines'
  end.

(** Lines 126-130: after the loop. *)
Definition finish (st : state) : result state :=
  match key_open (current_key st) with
  | Some key => materialize HeaderInfer key st
  | None => Ok st
  end.

Definition init (fs0 : node) : state :=
  {| data_frames := [];
     current_key := None;
     string_io := EmptyString;
     fs := fs0 |}.

Definition _process_content (fs0 : node) (content : string) : result node :=
  st <- scan (init fs0) (splitlines content) ;;
  st' <- finish st ;;
  Ok (fs st').

End WithPandas.

End Parser.

(** ** DownloadGeoDataset *)

Module DownloadGeoDataset.

Section Task.

Variable w : world.
Variable p : Params.

Definition output : path :=
  os_path_join (data_directory p)
    (dataset_name p ++ "_" ++ dataset_series p ++ "_RAW.tar").

Definition _construct_download_url (series name : string) : string :=
  "https://ftp.ncbi.nlm.nih.gov/geo/series/" ++ series ++ "/" ++ name
    ++ "/suppl/" ++ name ++ "_RAW.tar".

Definition run (fs : node) : result node :=
  fs1 <- os_makedirs fs (data_directory p) ;;
  let url := _construct_download_url (dataset_series p) (dataset_name p) in
  response <- requests_get w url ;;
  if (status_code response =? 200)%Z
  then write_file fs1 output (content response)
  else Raise (DownloadFailed (status_code response)).

Definition complete (fs : node) : result bool :=
  if os_path_isfile fs output
  then sz <- os_path_getsize fs output ;; Ok (0 <? sz)%N
  else Ok false.

End Task.

End DownloadGeoDataset.

(** ** ExtractAndProcessGeoDataset *)

Module ExtractAndProcessGeoDataset.

Section Task.

Variable w : world.
Variable p : Params.

Definition requires : Params := p.

Definition output : path :=
  os_path_join (os_path_join (data_directory p) (dataset_name p))
    (dataset_series p).

Definition _process_content (fs : node) (content : string) (output_dir : path)
  : result node :=
  Parser._process_content (pd w) output_dir fs content.

Definition _decompress_and_split_gz (fs : node) (gz_path output_dir : path)
  : result node :=
  raw <- read_file fs gz_path ;;
  content <- gzip_read_decode w raw ;;
  fs1 <- os_remove fs gz_path ;;
  _process_content fs1 content output_dir.

(** The body of the loop of lines 76-85, for one member. *)
Definition extract_member (fs : node) (member : TarInfo) : result node :=
  let file_name := os_path_basename (member_name member) in
  let file_dir := os_path_join output file_name in
  fs1 <- os_makedirs fs file_dir ;;
  fs2 <- write_file fs1 (os_path_join file_dir file_name) (member_data member) ;;
  let extracted_file_path := os_path_join file_dir file_name in
  if endswith ".gz" (path_str extracted_file_path)
  then _decompress_and_split_gz fs2 extracted_file_path file_dir
  else Ok fs2.

Fixpoint extract_members (fs : node) (members : list TarInfo) : result node :=
  match members with
  | [] => Ok fs
  | member :: members' =>
      fs' <- extract_member fs member ;; extract_members fs' members'
  end.

Definition run (fs : node) : result node :=
  fs1 <- os_makedirs fs output ;;
  let tar_path := DownloadGeoDataset.output requires in
  tar <- read_file fs1 tar_path ;;
  members <- tarfile_getmembers w tar ;;
  extract_members fs1 members.

(** Lines 93-97: the inner loop; [Ok false] is the early [return False]. *)
Fixpoint check_dirs (fs : node) (root : path) (dirs : list string)
  : result bool :=
  match dirs with
  | [] => Ok true
  | dir_name :: dirs' =>
      let dir_path := os_path_join root dir_name in
      names <- os_listdir fs dir_path ;;
      let tsv_files := filter (endswith ".tsv") names in
      if (List.length tsv_files =? 0)%nat
      then Ok false
      else check_dirs fs root dirs'
  end.

(** Lines 92-99: the outer loop over [os.walk]. *)
Fixpoint check_walk (fs : node)
  (triples : list (path * list string * list string)) : result bool :=
  match triples with
  | [] => Ok true
  | (root, dirs, _) :: triples' =>
      b <- check_dirs fs root dirs ;;
      if b then check_walk fs triples' else Ok false
  end.

Definition complete (fs : node) : result bool :=
  let extract_path := output in
  if negb (os_path_isdir fs extract_path)
  then Ok false
  else check_walk fs (os_walk fs extract_path).

End Task.

End ExtractAndProcessGeoDataset.

(** ** ProcessProbes *)

Module ProcessProbes.

Section Task.

Variable w : world.
Variable p : Params.

Definition requires : Params := p.

Definition base_path : path :=
  os_path_join (os_path_join (data_directory p) (dataset_name p))
    (dataset_series p).

Definition output (fs : node) : list path :=
  flat_map
    (fun t : path * list string * list string =>
       let '(root, _, files) := t in
       if str_in "Probes.tsv" files
       then [os_path_join root "ProbesTrimmed.tsv"]
       else [])
    (os_walk fs base_path).

Definition columns_to_remove : list string :=
  [ "Definition";
    "Ontology_Component";
    "Ontology_Process";
    "Ontology_Function";
    "Synonyms";
    "Obsolete_Probe_Id";
    "Probe_Sequence" ].

(** Lines 163-176: the projection of one [Probes.tsv]. *)
Definition trim (fs : node) (root : path) : result node :=
  let full_probes_path := os_path_join root "Probes.tsv" in
  text <- read_file fs full_probes_path ;;
  df <- read_csv (pd w) HeaderInfer text ;;
  let trimmed_df := drop columns_to_remove df in
  let output_file_path := os_path_join root "ProbesTrimmed.tsv" in
  write_file fs output_file_path (to_csv (pd w) trimmed_df).

(** The loop of lines 161-176.  The walk is taken on the tree as it is
    when the loop starts: the loop writes regular files only, into
    directories already listed, which changes no later triple's [root]
    and no membership of [Probes.tsv]. *)
Fixpoint trim_all (fs : node)
  (triples : list (path * list string * list string)) : result node :=
  match triples with
  | [] => Ok fs
  | (root, _, files) :: triples' =>
      if str_in "Probes.tsv" files
      then fs' <- trim fs root ;; trim_all fs' triples'
      else trim_all fs triples'
  end.

Definition run (fs : node) : result node :=
  trim_all fs (os_walk fs base_path).

(** Lines 185-193: the loop, on the two flags; the second component set
    to [false] is the [break]. *)
Fixpoint complete_loop (fs : node)
  (triples : list (path * list string * list string))
  (found_probes all_trimmed : bool) : result (bool * bool) :=
  match triples with
  | [] => Ok (found_probes, all_trimmed)
  | (root, _, files) :: triples' =>
      if str_in "Probes.tsv" files
      then
        let trimmed_path := os_path_join root "ProbesTrimmed.tsv" in
        ok <- (if os_path_exists fs trimmed_path
               then sz <- os_path_getsize fs trimmed_path ;; Ok (0 <? sz)%N
               else Ok false) ;;
        if negb ok
        then Ok (true, false)
        else complete_loop fs triples' true all_trimmed
      else complete_loop fs triples' found_probes all_trimmed
  end.

Definition complete (fs : node) : result bool :=
  flags <- complete_loop fs (os_walk fs base_path) false true ;;
  Ok (fst flags && snd flags).

End Task.

End ProcessProbes.

(** ** The scheduler

    luigi runs a task only when its [complete()] is false, after the tasks
    it [requires]; before [run()] it checks that what the task requires is
    complete and fails with "Unfulfilled dependency at run time" if not.
    The run also reports which [run()] methods it called, in order. *)

Module Luigi.

Inductive task : Type :=
| Download       (* DownloadGeoDataset *)
| Extract        (* ExtractAndProcessGeoDataset *)
| Probes.        (* ProcessProbes *)

Definition requires (t : task) : option task :=
  match t with
  | Download => None
  | Extract => Some Download
  | Probes => Some Extract
  end.

Section Build.

Variable w : world.
Variable p : Params.

Definition complete (t : task) (fs : node) : result bool :=
  match t with
  | Download => DownloadGeoDataset.complete p fs
  | Extract => ExtractAndProcessGeoDataset.complete p fs
  | Probes => ProcessProbes.complete p fs
  end.

Definition run (t : task) (fs : node) : result node :=
  match t with
  | Download => DownloadGeoDataset.run w p fs
  | Extract => ExtractAndProcessGeoDataset.run w p fs
  | Probes => ProcessProbes.run w p fs
  end.

(** [chain] is a task followed by what it requires, transitively. *)
Fixpoint resolve (chain : list task) (fs : node)
  : result (node * list task) :=
  match chain with
  | [] => Ok (fs, [])
  | t :: deps =>
      done <- complete t fs ;;
      if done then Ok (fs, [])
      else
        r <- resolve deps fs ;;
        let '(fs1, ran) := r in
        fulfilled <- match deps with
                     | [] => Ok true
                     | d :: _ => complete d fs1
                     end ;;
        if fulfilled
        then fs2 <- run t fs1 ;; Ok (fs2, (ran ++ [t])%list)
        else Raise UnfulfilledDependency
  end.

Fixpoint chain_of (depth : nat) (t : task) : list task :=
  t :: match depth with
       | O => []
       | S depth' =>
           match requires t with
           | Some d => chain_of depth' d
           | None => []
           end
       end.

(** [luigi.run()] for the task named on the command line. *)
Definition build (t : task) (fs : node) : result (node * list task) :=
  resolve (chain_of 2 t) fs.

(** The whole pipeline is the last task of the chain. *)
Definition pipeline (fs : node) : result (node * list task) :=
  build Probes fs.

End Build.

End Luigi.

(** ** Inputs and statements used by the theorems *)

(** An output directory that exists and is empty. *)
Definition out_dir : path := ["out"].
Definition empty_out : node := Dir 0 [("out", Dir mkdir_st_size [])].

(** "[A]\n[B]\nx\n" *)
Definition empty_section_input : string :=
  "[A]" ++ nl ++ "[B]" ++ nl ++ "x" ++ nl.

(** "[Heading]\nfoo\tbar\n" *)
Definition heading_last_input : string :=
  "[Heading]" ++ nl ++ "foo" ++ tab ++ "bar" ++ nl.

(** "[Heading]\nfoo\tbar\n[Data]\ncol1\tcol2\n1\t2\n" *)
Definition roundtrip_input : string :=
  "[Heading]" ++ nl ++ "foo" ++ tab ++ "bar" ++ nl
  ++ "[Data]" ++ nl ++ "col1" ++ tab ++ "col2" ++ nl ++ "1" ++ tab ++ "2" ++ nl.

(** The outcome [r] of a run of the parser is a tree in which [dir] lists
    exactly the given files, each holding exactly the given lines. *)
Definition writes_exactly (r : result node) (dir : path)
  (files : list (string * list string)) : Prop :=
  exists fs',
    r = Ok fs'
    /\ os_listdir fs' dir = Ok (map fst files)
    /\ Forall
         (fun f => exists data,
              read_file fs' (os_path_join dir (fst f)) = Ok data
              /\ splitlines data = snd f)
         files.

(** A storage root for the default parameters: the fetched container and
    the extraction directory with the given member directories. *)
Definition storage_root (members : list (string * node)) : node :=
  Dir mkdir_st_size
    [("data",
      Dir mkdir_st_size
        [("GSE68849_GSE68nnn_RAW.tar", File "TAR");
         ("GSE68849",
          Dir mkdir_st_size [("GSE68nnn", Dir mkdir_st_size members)])])].


(** One member extracted, with a table that is not Probes. *)
Definition no_probes_root : node :=
  storage_root
    [("GSM1.txt.gz", Dir mkdir_st_size [("Data.tsv", File ("a" ++ nl))])].

(** [root/ProbesTrimmed.tsv] exists and its size is not zero. *)
Definition trimmed_ok (fs : node) (root : path) : bool :=
  match lookup fs (os_path_join root "ProbesTrimmed.tsv") with
  | Some n => (0 <? st_size n)%N
  | None => false
  end.

(** A world whose remote answers every request with the given status and
    body. *)
Definition answers (status : Z) (body : string) : world :=
  {| requests_get := fun _ => Ok {| status_code := status; content := body |};
     tarfile_getmembers := fun _ => Raise ReadError;
     gzip_read_decode := fun _ => Raise BadGzipFile;
     pd := ref_pandas |}.

(** A world whose remote holds a container of one member, GSM1.txt.gz,
    whose text is [text]. *)
Definition one_member (text : string) : world :=
  {| requests_get :=
       fun _ => Ok {| status_code := 200; content := "TAR" |};
     tarfile_getmembers :=
       fun tar =>
         if String.eqb tar "TAR"
         then Ok [{| member_name := "GSM1.txt.gz"; member_data := "GZ" |}]
         else Raise ReadError;
     gzip_read_decode :=
       fun raw => if String.eqb raw "GZ" then Ok text else Raise BadGzipFile;
     pd := ref_pandas |}.

(** "[Data]\na\tb\n1\t2\n": a payload without a section Probes. *)
Definition data_only_text : string :=
  "[Data]" ++ nl ++ "a" ++ tab ++ "b" ++ nl ++ "1" ++ tab ++ "2" ++ nl.

(** "[Probes]\nID\tDefinition\tSymbol\n1\td\ts\n" *)
Definition probes_text : string :=
  "[Probes]" ++ nl ++ "ID" ++ tab ++ "Definition" ++ tab ++ "Symbol" ++ nl
  ++ "1" ++ tab ++ "d" ++ tab ++ "s" ++ nl.

(** The tree a first run leaves in the world [one_member data_only_text]. *)
Definition after_data_only : node :=
  storage_root
    [("GSM1.txt.gz",
      Dir mkdir_st_size
        [("Data.tsv", File ("a" ++ tab ++ "b" ++ nl ++ "1" ++ tab ++ "2" ++ nl))])].

(** The tree a first run leaves in the world [one_member probes_text]. *)
Definition after_probes : node :=
  storage_root
    [("GSM1.txt.gz",
      Dir mkdir_st_size
        [("Probes.tsv",
          File ("ID" ++ tab ++ "Definition" ++ tab ++ "Symbol" ++ nl
                ++ "1" ++ tab ++ "d" ++ tab ++ "s" ++ nl));
         ("ProbesTrimmed.tsv",
          File ("ID" ++ tab ++ "Symbol" ++ nl ++ "1" ++ tab ++ "s" ++ nl))])].

(** A member directory that holds a Probes.tsv, before it is trimmed. *)
Definition member_dir : path :=
  ["data"; "GSE68849"; "GSE68nnn"; "GSM1.txt.gz"].

Definition before_trim : node :=
  storage_root
    [("GSM1.txt.gz",
      Dir mkdir_st_size
        [("Probes.tsv",
          File ("ID" ++ tab ++ "Definition" ++ tab ++ "Symbol" ++ nl
                ++ "1" ++ tab ++ "d" ++ tab ++ "s" ++ nl))])].


(** Two triples of a walk with the same root and directories, and the
    same files but for [x]. *)
Definition same_but (x : string) (t t' : path * list string * list string)
  : Prop :=
  fst (fst t) = fst (fst t')
  /\ snd (fst t) = snd (fst t')
  /\ forall f, f <> x -> (In f (snd t) <-> In f (snd t')).

(** [q] is a regular file that is not empty. *)
Definition nonempty_file (fs : node) (q : path) : Prop :=
  exists data, lookup fs q = Some (File data) /\ data <> EmptyString.

(** The walk of the extraction root meets a file Probes.tsv. *)
Definition has_probes (p : Params) (fs : node) : bool :=
  existsb (fun t : path * list string * list string =>
             str_in "Probes.tsv" (snd t))
    (os_walk fs (ProcessProbes.base_path p)).

(** What [fs'] keeps of [fs] after files ProbesTrimmed.tsv were written:
    the walks agree but for that name, directories keep their names, and
    files that were not empty are not empty. *)
Definition kept (fs fs' : node) : Prop :=
  (forall base,
      Forall2 (same_but "ProbesTrimmed.tsv") (os_walk fs base) (os_walk fs' base))
  /\ (forall y sz es,
         lookup fs y = Some (Dir sz es) ->
         exists es',
           lookup fs' y = Some (Dir sz es') /\ incl (map fst es) (map fst es'))
  /\ (forall q, nonempty_file fs q -> nonempty_file fs' q).

(** Every character of [s] is one of [chars]. *)
Fixpoint all_in (chars s : string) : bool :=
  match s with
  | EmptyString => true
  | String c s' => char_in c chars && all_in chars s'
  end.




(** What a section buffer may hold: data lines, each followed by LF. *)
Definition buffer_of (ls : list string) : string :=
  str_concat (map (fun l => l ++ nl) ls).



(** A storage root with a file of notes beside the data directory. *)
Definition root_with_notes : node :=
  Dir mkdir_st_size [("notes.txt", File "keep")].

(** In [fs] the directory [root] holds a Probes.tsv that parses and, in
    ProbesTrimmed.tsv, the table without the columns to remove. *)
Definition projected (w : world) (fs : node) (root : path) : Prop :=
  exists text df,
    read_file fs (os_path_join root "Probes.tsv") = Ok text
    /\ read_csv (pd w) HeaderInfer text = Ok df
    /\ read_file fs (os_path_join root "ProbesTrimmed.tsv")
       = Ok (to_csv (pd w) (drop ProcessProbes.columns_to_remove df)).

(** A storage root after the fetch, with a file of notes beside the data
    directory. *)
Definition fetched_root : node :=
  Dir mkdir_st_size
    [("notes.txt", File "keep");
     ("data", Dir mkdir_st_size [("GSE68849_GSE68nnn_RAW.tar", File "TAR")])].

(** [fetched_root] after the extraction of one member whose text is
    [data_only_text]. *)
Definition extracted_root : node :=
  Dir mkdir_st_size
    [("notes.txt", File "keep");
     ("data",
      Dir mkdir_st_size
        [("GSE68849_GSE68nnn_RAW.tar", File "TAR");
         ("GSE68849",
          Dir mkdir_st_size
            [("GSE68nnn",
              Dir mkdir_st_size
                [("GSM1.txt.gz",
                  Dir mkdir_st_size
                    [("Data.tsv",
                      File ("a" ++ tab ++ "b" ++ nl
                            ++ "1" ++ tab ++ "2" ++ nl))])])])])].

(** A world whose container has no member. *)
Definition no_members : world :=
  {| requests_get := fun _ => Ok {| status_code := 200; content := "TAR" |};
     tarfile_getmembers := fun _ => Ok [];
     gzip_read_decode := fun _ => Raise BadGzipFile;
     pd := ref_pandas |}.



(** Every directory of [fs] is a directory of [fs']. *)
Definition dirs_kept (fs fs' : node) : Prop :=
  forall y, os_path_isdir fs y = true -> os_path_isdir fs' y = true.

(** No character of [s] is a line boundary of [splitlines]. *)
Fixpoint no_linebreak (s : string) : bool :=
  match s with
  | EmptyString => true
  | String c s' => negb (is_linebreak c) && no_linebreak s'
  end.

(** A data line: one line of text that does not start with a bracket. *)
Definition data_line (l : string) : bool :=
  no_linebreak l && negb (startswith "[" l).

(** A header line: one line of text that starts with a bracket. *)
Definition header_line (l : string) : bool :=
  no_linebreak l && startswith "[" l.

(** A sectioned text, section by section: each header line with the data
    lines that follow it. *)
Definition sections : Type := list (string * list string).

Definition section_lines (sec : string * list string) : list string :=
  fst sec :: snd sec.

Definition sections_text (secs : sections) : string :=
  buffer_of (flat_map section_lines secs).

Definition well_formed_section (sec : string * list string) : bool :=
  header_line (fst sec) && forallb data_line (snd sec).

(** The table of one section: the frame read from the text of its data
    lines, written to [<output_dir>/<key>.tsv]. *)
Definition write_table (pd : pandas) (output_dir : path)
  (header : header_arg) (key buf : string) (fs : node) : result node :=
  df <- read_csv pd header buf ;;
  write_file fs (os_path_join output_dir (key ++ ".tsv")) (to_csv pd df).

(** The parser, section by section.  [pending] is the section that is
    open, with the text of its data lines: a header line closes it under
    the header rule, the end of the text closes it with the inferred
    header; a header line whose name is empty opens nothing. *)
Fixpoint write_sections (pd : pandas) (output_dir : path)
  (pending : option (string * string)) (fs : node) (secs : sections)
  : result node :=
  match secs with
  | [] =>
      match pending with
      | Some (key, buf) => write_table pd output_dir HeaderInfer key buf fs
      | None => Ok fs
      end
  | (h, ds) :: secs' =>
      fs1 <- match pending with
             | Some (key, buf) =>
                 write_table pd output_dir
                   (if String.eqb key "Heading" then HeaderNone else HeaderInfer)
                   key buf fs
             | None => Ok fs
             end ;;
      let key' := strip ("[]" ++ nl) h in
      write_sections pd output_dir
        (if str_truthy key' then Some (key', buffer_of ds) else None)
        fs1 secs'
  end.

(** * Theorems *)

(** ** Strings *)

Lemma str_app_nil_r : forall s : string, s ++ EmptyString = s.
Proof. induction s as [|c s IH]; simpl; [|rewrite IH]; reflexivity. Qed.

Lemma str_app_assoc : forall a b c : string, (a ++ b) ++ c = a ++ b ++ c.
Proof. induction a as [|x a IH]; intros b c; simpl; [|rewrite IH]; reflexivity. Qed.

Lemma str_length_app : forall a b : string,
  String.length (a ++ b) = String.length a + String.length b.
Proof. induction a as [|x a IH]; intros b; simpl; [|rewrite IH]; reflexivity. Qed.

(** ** The parser on three inputs *)

(** C1 (the code at the failing input): on "[A]\n[B]\nx\n" the header
    [B] finalizes section A with an empty buffer, [read_csv] raises
    [EmptyDataError], and the parser stops without writing A or B. *)
Theorem empty_section_raises : forall (fs0 : node) (output_dir : path),
  Parser._process_content ref_pandas output_dir fs0 empty_section_input
  = Raise EmptyDataError.
Proof. intros fs0 output_dir. reflexivity. Qed.

(** C2 (the code at the failing input): a section Heading closed by the
    end of the input is read with the inferred header, so its only line
    becomes the column names; the same section closed by a header line is
    read with [header=None] and the line stays a data row under the
    labels 0 and 1. *)
Theorem heading_last_read_with_header :
  writes_exactly
    (Parser._process_content ref_pandas out_dir empty_out heading_last_input)
    out_dir [("Heading.tsv", ["foo" ++ tab ++ "bar"])]
  /\ writes_exactly
       (Parser._process_content ref_pandas out_dir empty_out
          (heading_last_input ++ "[Data]" ++ nl ++ "x" ++ nl))
       out_dir
       [("Heading.tsv", ["0" ++ tab ++ "1"; "foo" ++ tab ++ "bar"]);
        ("Data.tsv", ["x"])].
Proof.
  split; eexists; (split; [vm_compute; reflexivity|]);
    (split; [reflexivity|]);
    repeat constructor; eexists; (split; [reflexivity|]); reflexivity.
Qed.

(** C3 as stated fails: the parser returns, and the Heading.tsv it wrote
    is not the single line foo<TAB>bar. *)
Lemma roundtrip_heading_not_verbatim :
  exists (fs' : node) (data : string),
    Parser._process_content ref_pandas out_dir empty_out roundtrip_input
    = Ok fs'
    /\ read_file fs' (os_path_join out_dir "Heading.tsv") = Ok data
    /\ splitlines data <> ["foo" ++ tab ++ "bar"].
Proof.
  do 2 eexists. split; [vm_compute; reflexivity|].
  split; [reflexivity|]. vm_compute. discriminate.
Qed.

(** C3 (amended): on "[Heading]\nfoo\tbar\n[Data]\ncol1\tcol2\n1\t2\n" the
    parser writes exactly two files: Heading.tsv holds the line of the
    labels 0 and 1 and then foo<TAB>bar, Data.tsv holds col1<TAB>col2 and
    then 1<TAB>2. *)
Theorem roundtrip_two_files :
  writes_exactly
    (Parser._process_content ref_pandas out_dir empty_out roundtrip_input)
    out_dir
    [("Heading.tsv", ["0" ++ tab ++ "1"; "foo" ++ tab ++ "bar"]);
     ("Data.tsv", ["col1" ++ tab ++ "col2"; "1" ++ tab ++ "2"])].
Proof.
  eexists; split; [vm_compute; reflexivity|].
  split; [reflexivity|].
  repeat constructor; eexists; (split; [reflexivity|]); reflexivity.
Qed.

(** ** Header lines *)

Section Strip.

Variable chars : string.







End Strip.

Section Scan.

Variable pd : pandas.
Variable output_dir : path.

Lemma materialize_keeps_buffer : forall header key st st',
  Parser.materialize pd output_dir header key st = Ok st' ->
  Parser.string_io st' = Parser.string_io st
  /\ Parser.current_key st' = Parser.current_key st.
Proof.
  intros header key st st'. unfold Parser.materialize.
  destruct (read_csv pd header (Parser.string_io st)); simpl; [|discriminate].
  destruct (write_file _ _ _); simpl; [|discriminate].
  intros [= <-]. split; reflexivity.
Qed.




End Scan.



(** ** The file system *)

Section NodeInduction.

Variable P : node -> Prop.
Hypothesis P_file : forall data, P (File data).
Hypothesis P_dir :
  forall sz es, Forall (fun e => P (snd e)) es -> P (Dir sz es).

Fixpoint node_rect_entries (n : node) : P n :=
  match n with
  | File data => P_file data
  | Dir sz es =>
      P_dir sz es
        ((fix entries (l : list (string * node))
            : Forall (fun e => P (snd e)) l :=
            match l with
            | [] => Forall_nil _
            | (k, c) :: l' =>
                Forall_cons (k, c) (node_rect_entries c) (entries l')
            end) es)
  end.

End NodeInduction.

Lemma assoc_in : forall name es c,
  assoc name es = Some c -> In (name, c) es.
Proof.
  induction es as [|[k v] es IH]; simpl; intros c; [discriminate|].
  destruct (String.eqb name k) eqn:E.
  - apply String.eqb_eq in E. intros [= <-]. left. congruence.
  - intros H. right. apply IH, H.
Qed.

Lemma unique_names_assoc : forall es name c,
  unique_names (map fst es) = true -> In (name, c) es ->
  assoc name es = Some c.
Proof.
  induction es as [|[k v] es IH]; simpl; intros name c Hu Hin; [contradiction|].
  apply andb_prop in Hu. destruct Hu as [Hk Hu].
  destruct Hin as [[= -> ->]|Hin].
  - rewrite String.eqb_refl. reflexivity.
  - destruct (String.eqb name k) eqn:E; [|apply IH; assumption].
    apply String.eqb_eq in E. subst k. exfalso.
    apply negb_true_iff in Hk.
    assert (Hex : existsb (String.eqb name) (map fst es) = true).
    { apply existsb_exists. exists name. split; [|apply String.eqb_refl].
      apply in_map_iff. exists (name, c). split; [reflexivity | exact Hin]. }
    congruence.
Qed.

Lemma wf_node_entries : forall sz es e,
  wf_node (Dir sz es) = true -> In e es -> wf_node (snd e) = true.
Proof.
  simpl. intros sz es e H Hin. apply andb_prop in H. destruct H as [_ H].
  rewrite forallb_forall in H. apply H, Hin.
Qed.

Lemma wf_node_unique : forall sz es,
  wf_node (Dir sz es) = true -> unique_names (map fst es) = true.
Proof. simpl. intros sz es H. apply andb_prop in H. apply H. Qed.

Lemma lookup_app : forall p q n,
  lookup n (p ++ q)%list
  = match lookup n p with Some m => lookup m q | None => None end.
Proof.
  induction p as [|name p IH]; intros q n; simpl; [reflexivity|].
  destruct n as [|sz es]; [reflexivity|].
  destruct (assoc name es); [apply IH | reflexivity].
Qed.

Lemma wf_lookup : forall p n m,
  wf_node n = true -> lookup n p = Some m -> wf_node m = true.
Proof.
  induction p as [|name p IH]; intros n m Hwf; simpl.
  - intros [= <-]. exact Hwf.
  - destruct n as [|sz es]; [discriminate|].
    destruct (assoc name es) as [c|] eqn:Hc; [|discriminate].
    apply IH. apply (wf_node_entries sz es (name, c) Hwf), assoc_in, Hc.
Qed.

Lemma lookup_file_nil : forall data p m,
  lookup (File data) p = Some m -> p = [] /\ m = File data.
Proof.
  intros data [|name p] m; simpl; [intros [= <-]; split; reflexivity | discriminate].
Qed.

(** *** [os.walk] lists the directories under its top, and only them *)

Lemma walk_complete : forall q n top sz es,
  lookup n q = Some (Dir sz es) ->
  In (top ++ q, dirnames es, filenames es)%list (walk_node top n).
Proof.
  induction q as [|name q IH]; intros n top sz es; simpl.
  - intros [= ->]. rewrite app_nil_r. left. reflexivity.
  - destruct n as [|sz0 es0]; [discriminate|].
    destruct (assoc name es0) as [c|] eqn:Hc; [|discriminate].
    intros Hq. simpl. right. apply in_flat_map.
    exists (name, c). split; [apply assoc_in, Hc|]. simpl.
    specialize (IH c (os_path_join top name) sz es Hq).
    unfold os_path_join in *. rewrite <- app_assoc in IH. exact IH.
Qed.

Lemma walk_sound : forall n top t,
  wf_node n = true -> In t (walk_node top n) ->
  exists q sz es,
    t = ((top ++ q)%list, dirnames es, filenames es)
    /\ lookup n q = Some (Dir sz es).
Proof.
  induction n as [data|sz es IH] using node_rect_entries;
    intros top t Hwf; simpl; [contradiction|].
  intros [<-|Hin].
  - exists [], sz, es. rewrite app_nil_r. split; reflexivity.
  - apply in_flat_map in Hin. destruct Hin as ([name c] & He & Hin).
    simpl in Hin. rewrite Forall_forall in IH.
    destruct (IH (name, c) He (os_path_join top name) t) as (q & sz' & es' & -> & Hq).
    + apply (wf_node_entries sz es (name, c) Hwf He).
    + exact Hin.
    + exists (name :: q), sz', es'. split.
      * unfold os_path_join. rewrite <- app_assoc. reflexivity.
      * simpl.
        rewrite (unique_names_assoc es name c (wf_node_unique sz es Hwf) He).
        exact Hq.
Qed.


Lemma in_filenames : forall es f,
  In f (filenames es) <-> exists c, In (f, c) es /\ is_dir c = false.
Proof.
  intros es f. unfold filenames. rewrite in_map_iff. split.
  - intros ([k c] & <- & Hin). apply filter_In in Hin. exists c.
    destruct Hin as [Hin Hc]. apply negb_true_iff in Hc. split; assumption.
  - intros (c & Hin & Hc). exists (f, c). split; [reflexivity|].
    apply filter_In. split; [exact Hin | apply negb_true_iff, Hc].
Qed.

Lemma str_in_In : forall x xs, str_in x xs = true <-> In x xs.
Proof.
  intros x xs. unfold str_in. rewrite existsb_exists. split.
  - intros (y & Hin & E). apply String.eqb_eq in E. subst y. exact Hin.
  - intros Hin. exists x. split; [exact Hin | apply String.eqb_refl].
Qed.

Lemma filter_none_existsb : forall (A : Type) (f : A -> bool) (l : list A),
  (List.length (filter f l) =? 0)%nat = negb (existsb f l).
Proof.
  induction l as [|x l IH]; simpl; [reflexivity|].
  destruct (f x); simpl; [reflexivity | exact IH].
Qed.

(** ** ExtractAndProcessGeoDataset.complete *)

Section ExtractComplete.

Import ExtractAndProcessGeoDataset.

Variable fs : node.





End ExtractComplete.





Lemma walk_without_subdirectories : forall top es,
  dirnames es = [] ->
  flat_map (fun e => walk_node (os_path_join top (fst e)) (snd e)) es = [].
Proof.
  induction es as [|[k c] es IH]; simpl; intros Hd; [reflexivity|].
  unfold dirnames in Hd. simpl in Hd.
  destruct c as [data|sz es']; simpl in *; [apply IH, Hd | discriminate Hd].
Qed.

Section Resolve.

Variable w : world.
Variable p : Params.

(** What the scheduler does once the Extract predicate holds. *)
Lemma extract_complete_skips : forall fs,
  ExtractAndProcessGeoDataset.complete p fs = Ok true ->
  Luigi.build w p Luigi.Extract fs = Ok (fs, [])
  /\ forall fs' ran,
      Luigi.pipeline w p fs = Ok (fs', ran) ->
      ran = [] \/ ran = [Luigi.Probes].
Proof.
  intros fs Hc. unfold Luigi.pipeline, Luigi.build. simpl.
  rewrite Hc. simpl. split; [reflexivity|].
  intros fs' ran.
  destruct (ProcessProbes.complete p fs) as [[|]|]; simpl;
    [intros H; inversion H; left; reflexivity | | discriminate].
  rewrite Hc. simpl.
  destruct (ProcessProbes.run w p fs); simpl; [|discriminate].
  intros H. inversion H. right. reflexivity.
Qed.

End Resolve.

(** C9: when the destination of Extract is a directory without any
    subdirectory, its predicate is true; the scheduler then never calls
    Extract's action: asked for Extract it does nothing, and a run of the
    whole pipeline that returns has called at most the action of
    ProcessProbes. *)
Theorem extract_complete_without_subdirectories :
  forall (w : world) (p : Params) (fs : node) (sz : N)
         (es : list (string * node)),
    lookup fs (ExtractAndProcessGeoDataset.output p) = Some (Dir sz es) ->
    dirnames es = [] ->
    ExtractAndProcessGeoDataset.complete p fs = Ok true
    /\ Luigi.build w p Luigi.Extract fs = Ok (fs, [])
    /\ forall fs' ran,
        Luigi.pipeline w p fs = Ok (fs', ran) -> ~ In Luigi.Extract ran.
Proof.
  intros w p fs sz es Hl Hd.
  assert (Hc : ExtractAndProcessGeoDataset.complete p fs = Ok true).
  { unfold ExtractAndProcessGeoDataset.complete, os_path_isdir, os_walk.
    rewrite Hl. simpl. rewrite Hd, (walk_without_subdirectories _ es Hd).
    reflexivity. }
  destruct (extract_complete_skips w p fs Hc) as [Hb Hran].
  split; [exact Hc|]. split; [exact Hb|].
  intros fs' ran Hrun Hin.
  destruct (Hran fs' ran Hrun) as [-> | ->]; simpl in Hin;
    [contradiction | destruct Hin as [E|[]]; discriminate E].
Qed.

(** The extraction directory was made and nothing was extracted into it. *)
Lemma extract_complete_without_subdirectories_witness :
  ExtractAndProcessGeoDataset.complete default_params (storage_root []) = Ok true
  /\ Luigi.build
       {| requests_get := fun _ => Raise ConnectionError;
          tarfile_getmembers := fun _ => Raise ReadError;
          gzip_read_decode := fun _ => Raise BadGzipFile;
          pd := ref_pandas |}
       default_params Luigi.Extract (storage_root [])
     = Ok (storage_root [], []).
Proof.
  destruct (extract_complete_without_subdirectories
              {| requests_get := fun _ => Raise ConnectionError;
                 tarfile_getmembers := fun _ => Raise ReadError;
                 gzip_read_decode := fun _ => Raise BadGzipFile;
                 pd := ref_pandas |}
              default_params (storage_root []) mkdir_st_size []
              eq_refl eq_refl) as (Hc & Hb & _).
  split; [exact Hc | exact Hb].
Defined.

(** ** ProcessProbes.complete *)

Lemma exists_and_not_empty : forall fs root,
  (if os_path_exists fs (os_path_join root "ProbesTrimmed.tsv")
   then sz <- os_path_getsize fs (os_path_join root "ProbesTrimmed.tsv") ;;
        Ok (0 <? sz)%N
   else Ok false)
  = Ok (trimmed_ok fs root).
Proof.
  intros fs root. unfold os_path_exists, os_path_getsize, trimmed_ok.
  destruct (lookup fs _); reflexivity.
Qed.

Lemma complete_loop_spec : forall fs triples found,
  exists f a,
    ProcessProbes.complete_loop fs triples found true = Ok (f, a)
    /\ (f && a = true <->
        (found = true
         \/ exists root dirs files,
             In (root, dirs, files) triples /\ In "Probes.tsv" files)
        /\ forall root dirs files,
            In (root, dirs, files) triples -> In "Probes.tsv" files ->
            trimmed_ok fs root = true).
Proof.
  intros fs. induction triples as [|[[root dirs] files] triples IH];
    intros found; simpl.
  - exists found, true. split; [reflexivity|]. rewrite andb_true_r. split.
    + intros ->. split; [left; reflexivity | intros ? ? ? []].
    + intros [[H|(? & ? & ? & [] & _)] _]. exact H.
  - destruct (str_in "Probes.tsv" files) eqn:Hp.
    + rewrite exists_and_not_empty. simpl.
      apply str_in_In in Hp.
      destruct (trimmed_ok fs root) eqn:Hok; simpl.
      * destruct (IH true) as (f & a & Hrun & Hiff).
        exists f, a. split; [exact Hrun|]. rewrite Hiff. split.
        -- intros [_ H]. split.
           ++ right. exists root, dirs, files. split; [left; reflexivity | exact Hp].
           ++ intros r ds fl [[= <- <- <-]|Ht] Hin; [exact Hok | apply (H r ds fl Ht Hin)].
        -- intros [_ H]. split; [left; reflexivity|].
           intros r ds fl Ht Hin. apply (H r ds fl); [right; exact Ht | exact Hin].
      * exists true, false. split; [reflexivity|]. split; [discriminate|].
        intros [_ H]. specialize (H root dirs files (or_introl eq_refl) Hp).
        congruence.
    + assert (Hnp : ~ In "Probes.tsv" files).
      { intros H. apply str_in_In in H. congruence. }
      destruct (IH found) as (f & a & Hrun & Hiff).
      exists f, a. split; [exact Hrun|]. rewrite Hiff. split.
      * intros [Hf H]. split.
        -- destruct Hf as [Hf|(r & ds & fl & Ht & Hin)]; [left; exact Hf|].
           right. exists r, ds, fl. split; [right; exact Ht | exact Hin].
        -- intros r ds fl [[= <- <- <-]|Ht] Hin; [contradiction | apply (H r ds fl Ht Hin)].
      * intros [Hf H]. split.
        -- destruct Hf as [Hf|(r & ds & fl & [[= <- <- <-]|Ht] & Hin)];
             [left; exact Hf | contradiction |].
           right. exists r, ds, fl. split; assumption.
        -- intros r ds fl Ht Hin. apply (H r ds fl); [right; exact Ht | exact Hin].
Qed.

Lemma trimmed_ok_lookup : forall fs root,
  trimmed_ok fs root = true <->
  exists n,
    lookup fs (os_path_join root "ProbesTrimmed.tsv") = Some n
    /\ (0 < st_size n)%N.
Proof.
  intros fs root. unfold trimmed_ok.
  destruct (lookup fs _) as [n|]; split.
  - intros H. exists n. split; [reflexivity | apply N.ltb_lt, H].
  - intros (m & [= <-] & H). apply N.ltb_lt, H.
  - discriminate.
  - intros (m & H & _). discriminate H.
Qed.

Lemma no_probes_root_has_none : forall q sz es,
  lookup no_probes_root (ProcessProbes.base_path default_params ++ q)%list
  = Some (Dir sz es) ->
  ~ In "Probes.tsv" (filenames es).
Proof.
  intros q sz es Hl Hin.
  rewrite lookup_app in Hl.
  change (lookup no_probes_root (ProcessProbes.base_path default_params))
    with (Some (Dir mkdir_st_size
                  [("GSM1.txt.gz",
                    Dir mkdir_st_size [("Data.tsv", File ("a" ++ nl))])]))
    in Hl.
  apply (walk_complete q _ []) in Hl. simpl in Hl.
  destruct Hl as [Hl|[Hl|[]]]; injection Hl as _ _ Hf;
    rewrite <- Hf in Hin; simpl in Hin; [contradiction|].
  destruct Hin as [E|[]]. discriminate E.
Qed.

(** C6 as stated fails: in this tree no directory holds a Probes.tsv, so
    every directory that holds one has its trimmed file, and the predicate
    is false all the same. *)
Lemma probes_complete_false_without_probes :
  ProcessProbes.complete default_params no_probes_root = Ok false
  /\ forall q sz es,
      lookup no_probes_root (ProcessProbes.base_path default_params ++ q)%list
      = Some (Dir sz es) ->
      In "Probes.tsv" (filenames es) ->
      trimmed_ok no_probes_root
        (ProcessProbes.base_path default_params ++ q)%list = true.
Proof.
  split; [reflexivity|].
  intros q sz es Hl Hin. exfalso.
  apply (no_probes_root_has_none q sz es Hl Hin).
Qed.

(** C6 (amended): on a tree without repeated names the Project predicate
    returns, and it returns true exactly when some directory under the
    extraction root holds a file Probes.tsv and every directory that holds
    one also has an entry ProbesTrimmed.tsv of size above zero.  On a tree
    where no directory holds a Probes.tsv it returns false. *)
Theorem probes_complete_iff : forall (p : Params) (fs : node),
  wf_node fs = true ->
  let base := ProcessProbes.base_path p in
  exists b,
    ProcessProbes.complete p fs = Ok b
    /\ (b = true <->
        (exists q sz es,
            lookup fs (base ++ q)%list = Some (Dir sz es)
            /\ In "Probes.tsv" (filenames es))
        /\ forall q sz es,
            lookup fs (base ++ q)%list = Some (Dir sz es) ->
            In "Probes.tsv" (filenames es) ->
            exists n,
              lookup fs (os_path_join (base ++ q)%list "ProbesTrimmed.tsv")
              = Some n
              /\ (0 < st_size n)%N)
    /\ ((forall q sz es,
            lookup fs (base ++ q)%list = Some (Dir sz es) ->
            ~ In "Probes.tsv" (filenames es)) ->
        b = false).
Proof.
  intros p fs Hwf base.
  assert (Hmain : exists b,
    ProcessProbes.complete p fs = Ok b
    /\ (b = true <->
        (exists q sz es,
            lookup fs (base ++ q)%list = Some (Dir sz es)
            /\ In "Probes.tsv" (filenames es))
        /\ forall q sz es,
            lookup fs (base ++ q)%list = Some (Dir sz es) ->
            In "Probes.tsv" (filenames es) ->
            exists n,
              lookup fs (os_path_join (base ++ q)%list "ProbesTrimmed.tsv")
              = Some n
              /\ (0 < st_size n)%N)).
  { unfold ProcessProbes.complete. fold base.
    destruct (complete_loop_spec fs (os_walk fs base) false)
      as (f & a & Hrun & Hiff).
    rewrite Hrun. simpl. exists (f && a). split; [reflexivity|].
    rewrite Hiff. clear Hrun Hiff. unfold os_walk.
    destruct (lookup fs base) as [n|] eqn:Hbase.
    - assert (Hn : wf_node n = true) by apply (wf_lookup base fs n Hwf Hbase).
      split.
      + intros [[H|(root & dirs & files & Ht & Hin)] Hall]; [discriminate H|].
        split.
        * destruct (walk_sound n base _ Hn Ht) as (q & sz & es & [= -> -> ->] & Hq).
          exists q, sz, es. rewrite lookup_app, Hbase. split; assumption.
        * intros q sz es Hl Hp. apply trimmed_ok_lookup.
          rewrite lookup_app, Hbase in Hl.
          apply (Hall _ _ _ (walk_complete q n base sz es Hl) Hp).
      + intros [(q & sz & es & Hl & Hp) Hall].
        rewrite lookup_app, Hbase in Hl. split.
        * right. exists (base ++ q)%list, (dirnames es), (filenames es).
          split; [apply (walk_complete q n base sz es Hl) | exact Hp].
        * intros root dirs files Ht Hin.
          destruct (walk_sound n base _ Hn Ht) as (q' & sz' & es' & [= -> -> ->] & Hq').
          apply trimmed_ok_lookup, (Hall q' sz' es'); [|exact Hin].
          rewrite lookup_app, Hbase. exact Hq'.
    - split.
      + intros [[H|(? & ? & ? & [] & _)] _]. discriminate H.
      + intros [(q & sz & es & Hl & _) _].
        rewrite lookup_app, Hbase in Hl. discriminate Hl. }
  destruct Hmain as (b & Hb & Hiff).
  exists b. split; [exact Hb|]. split; [exact Hiff|].
  intros Hnone. destruct b; [|reflexivity].
  destruct (proj1 Hiff eq_refl) as [(q & sz & es & Hl & Hp) _].
  exfalso. apply (Hnone q sz es Hl Hp).
Qed.

(** A tree whose only table is Data.tsv. *)
Lemma probes_complete_iff_witness :
  wf_node no_probes_root = true
  /\ ProcessProbes.complete default_params no_probes_root = Ok false.
Proof.
  split; [reflexivity|].
  destruct (probes_complete_iff default_params no_probes_root eq_refl)
    as (b & Hb & _ & Hnone).
  rewrite Hb. f_equal. apply Hnone. exact no_probes_root_has_none.
Defined.

(** ** Writing files *)

Lemma assoc_put_same : forall k v es, assoc k (put k v es) = Some v.
Proof.
  induction es as [|[k' v'] es IH]; simpl.
  - rewrite String.eqb_refl. reflexivity.
  - destruct (String.eqb k k') eqn:E; simpl; rewrite E; [reflexivity | exact IH].
Qed.

Lemma assoc_put_other : forall k k' v es,
  String.eqb k' k = false -> assoc k' (put k v es) = assoc k' es.
Proof.
  induction es as [|[k0 v0] es IH]; simpl; intros Hk.
  - rewrite Hk. reflexivity.
  - destruct (String.eqb k k0) eqn:E; simpl.
    + apply String.eqb_eq in E. subst k0. rewrite Hk. reflexivity.
    + destruct (String.eqb k' k0); [reflexivity | apply IH, Hk].
Qed.

Lemma lookup_write_same : forall q n n' data,
  write_file n q data = Ok n' -> lookup n' q = Some (File data).
Proof.
  induction q as [|k q IH]; intros n n' data; simpl.
  - destruct n; [intros [= <-]; reflexivity | discriminate].
  - destruct n as [|sz es]; [discriminate|].
    destruct (assoc k es) as [c|] eqn:Hc.
    + destruct (write_file c q data) as [c'|] eqn:Hw; simpl; [|discriminate].
      intros [= <-]. simpl. rewrite assoc_put_same. apply (IH c c' data Hw).
    + destruct q; [|discriminate].
      intros [= <-]. simpl. rewrite assoc_put_same. reflexivity.
Qed.

(** A regular file elsewhere is left as it was. *)
Lemma lookup_write_other : forall q n n' data q' data',
  write_file n q data = Ok n' ->
  lookup n q' = Some (File data') -> q' <> q ->
  lookup n' q' = Some (File data').
Proof.
  induction q as [|k q IH]; intros n n' data q' data'; simpl.
  - destruct n; [|discriminate]. intros _ Hl Hne.
    apply lookup_file_nil in Hl. destruct Hl as [-> _]. contradiction.
  - destruct n as [|sz es]; [discriminate|].
    destruct q' as [|k' q']; [discriminate|]. simpl.
    destruct (assoc k es) as [c|] eqn:Hc.
    + destruct (write_file c q data) as [c'|] eqn:Hw; simpl; [|discriminate].
      intros [= <-] Hl Hne. simpl.
      destruct (String.eqb k' k) eqn:E.
      * apply String.eqb_eq in E. subst k'. rewrite assoc_put_same.
        rewrite Hc in Hl. apply (IH c c' data q' data' Hw Hl). congruence.
      * rewrite (assoc_put_other k k' c' es E). exact Hl.
    + destruct q; [|discriminate].
      intros [= <-] Hl Hne. simpl.
      destruct (String.eqb k' k) eqn:E.
      * apply String.eqb_eq in E. subst k'. rewrite Hc in Hl. discriminate Hl.
      * rewrite (assoc_put_other k k' (File data) es E). exact Hl.
Qed.

(** [open(p, "wb")] succeeds in an existing directory on a name that is
    not a directory. *)
Lemma write_file_ok : forall p n x data sz es,
  lookup n p = Some (Dir sz es) ->
  os_path_isdir n (os_path_join p x) = false ->
  exists n', write_file n (os_path_join p x) data = Ok n'.
Proof.
  unfold os_path_isdir, os_path_join.
  induction p as [|k p IH]; intros n x data sz es; simpl.
  - intros [= ->]. destruct (assoc x es) as [[d|sz' es']|]; simpl.
    + intros _. eexists. reflexivity.
    + discriminate.
    + intros _. eexists. reflexivity.
  - destruct n as [|sz0 es0]; [discriminate|].
    destruct (assoc k es0) as [c|]; [|discriminate].
    intros Hl Hd. destruct (IH c x data sz es Hl Hd) as (c' & Hw).
    rewrite Hw. simpl. eexists. reflexivity.
Qed.


Lemma makedirs_isdir : forall p n n',
  os_makedirs n p = Ok n' -> exists sz es, lookup n' p = Some (Dir sz es).
Proof.
  induction p as [|k p IH]; intros n n'; simpl.
  - destruct n as [|sz es]; [discriminate|]. intros [= <-]. exists sz, es. reflexivity.
  - destruct n as [|sz es]; [discriminate|].
    destruct (assoc k es) as [c|].
    + destruct (os_makedirs c p) as [c'|] eqn:Hm; simpl; [|discriminate].
      intros [= <-]. simpl. rewrite assoc_put_same. apply (IH c c' Hm).
    + destruct (os_makedirs (Dir mkdir_st_size []) p) as [c'|] eqn:Hm;
        simpl; [|discriminate].
      intros [= <-]. simpl. rewrite assoc_put_same. apply (IH _ c' Hm).
Qed.

Lemma write_file_not_download : forall q n data status,
  write_file n q data <> Raise (DownloadFailed status).
Proof.
  induction q as [|k q IH]; intros n data status; simpl.
  - destruct n; discriminate.
  - destruct n as [|sz es]; [discriminate|].
    destruct (assoc k es) as [c|].
    + destruct (write_file c q data) as [c'|e] eqn:Hw; simpl; [discriminate|].
      intros [= ->]. apply (IH c data status Hw).
    + destruct q; discriminate.
Qed.

(** ** DownloadGeoDataset.run *)

(** C7 as stated fails: a 200 answer with a zero-byte body raises nothing;
    the run returns and leaves an empty destination file. *)
Lemma download_accepts_empty_body :
  exists fs',
    DownloadGeoDataset.run (answers 200 EmptyString) default_params
      (Dir mkdir_st_size [])
    = Ok fs'
    /\ read_file fs' (DownloadGeoDataset.output default_params)
       = Ok EmptyString.
Proof. eexists. split; reflexivity. Qed.

(** C7 (amended): once the data directory is made and the remote has
    answered, the Fetch action raises its download error exactly when the
    status code is not 200, whatever the body; with status 200 it writes
    the whole body to the destination (it returns when the destination is
    not a directory), also when the body is empty.  An error raised by the
    Fetch action ends a run of the pipeline in which Fetch is due; after a
    200 answer with an empty body the Fetch predicate stays false and the
    scheduler stops before Extract. *)
Theorem download_run_spec :
  forall (w : world) (p : Params) (fs fs1 : node) (response : Response),
    os_makedirs fs (data_directory p) = Ok fs1 ->
    requests_get w
      (DownloadGeoDataset._construct_download_url
         (dataset_series p) (dataset_name p))
    = Ok response ->
    (DownloadGeoDataset.run w p fs
     = Raise (DownloadFailed (status_code response))
     <-> status_code response <> 200%Z)
    /\ (status_code response = 200%Z ->
        DownloadGeoDataset.run w p fs
        = write_file fs1 (DownloadGeoDataset.output p) (content response))
    /\ (status_code response = 200%Z ->
        os_path_isdir fs1 (DownloadGeoDataset.output p) = false ->
        exists fs2,
          DownloadGeoDataset.run w p fs = Ok fs2
          /\ read_file fs2 (DownloadGeoDataset.output p)
             = Ok (content response))
    /\ (forall e,
          DownloadGeoDataset.run w p fs = Raise e ->
          ProcessProbes.complete p fs = Ok false ->
          ExtractAndProcessGeoDataset.complete p fs = Ok false ->
          DownloadGeoDataset.complete p fs = Ok false ->
          Luigi.pipeline w p fs = Raise e)
    /\ (status_code response = 200%Z ->
        content response = EmptyString ->
        os_path_isdir fs1 (DownloadGeoDataset.output p) = false ->
        ProcessProbes.complete p fs = Ok false ->
        ExtractAndProcessGeoDataset.complete p fs = Ok false ->
        DownloadGeoDataset.complete p fs = Ok false ->
        Luigi.pipeline w p fs = Raise UnfulfilledDependency).
Proof.
  intros w p fs fs1 response Hmk Hget.
  assert (Hrun : DownloadGeoDataset.run w p fs
                 = if (status_code response =? 200)%Z
                   then write_file fs1 (DownloadGeoDataset.output p)
                          (content response)
                   else Raise (DownloadFailed (status_code response))).
  { unfold DownloadGeoDataset.run. rewrite Hmk. simpl. rewrite Hget. reflexivity. }
  assert (Hwrite : status_code response = 200%Z ->
                   os_path_isdir fs1 (DownloadGeoDataset.output p) = false ->
                   exists fs2,
                     DownloadGeoDataset.run w p fs = Ok fs2
                     /\ lookup fs2 (DownloadGeoDataset.output p)
                        = Some (File (content response))).
  { intros E Hd. rewrite Hrun, E. simpl.
    destruct (makedirs_isdir _ _ _ Hmk) as (sz & es & Hdir).
    destruct (write_file_ok (data_directory p) fs1 _ (content response)
                sz es Hdir Hd) as (fs2 & Hw).
    exists fs2. split; [exact Hw|].
    fold (DownloadGeoDataset.output p) in Hw.
    apply (lookup_write_same _ _ _ _ Hw). }
  split; [|split; [|split; [|split]]].
  - rewrite Hrun. destruct (Z.eqb_spec (status_code response) 200) as [E|E].
    + split; [|contradiction]. intros Hw. exfalso.
      apply (write_file_not_download _ _ _ _ Hw).
    + split; [intros _; exact E | reflexivity].
  - intros E. rewrite Hrun, E. reflexivity.
  - intros E Hd. destruct (Hwrite E Hd) as (fs2 & Hr & Hl).
    exists fs2. split; [exact Hr|]. unfold read_file. rewrite Hl. reflexivity.
  - intros e He Hp Hx Hd. unfold Luigi.pipeline, Luigi.build. simpl.
    rewrite Hp. simpl. rewrite Hx. simpl. rewrite Hd. simpl.
    rewrite He. reflexivity.
  - intros E Hempty Hdir Hp Hx Hd.
    destruct (Hwrite E Hdir) as (fs2 & Hr & Hl). rewrite Hempty in Hl.
    unfold Luigi.pipeline, Luigi.build. simpl.
    rewrite Hp. simpl. rewrite Hx. simpl. rewrite Hd. simpl.
    rewrite Hr. simpl.
    unfold DownloadGeoDataset.complete, os_path_isfile, os_path_getsize.
    rewrite Hl. reflexivity.
Qed.

(** The remote answers 404 on an empty storage root. *)
Lemma download_run_spec_witness :
  DownloadGeoDataset.run (answers 404 EmptyString) default_params
    (Dir mkdir_st_size [])
  = Raise (DownloadFailed 404)
  /\ Luigi.pipeline (answers 404 EmptyString) default_params
       (Dir mkdir_st_size [])
     = Raise (DownloadFailed 404).
Proof.
  destruct (download_run_spec (answers 404 EmptyString) default_params
              (Dir mkdir_st_size [])
              (Dir mkdir_st_size [("data", Dir mkdir_st_size [])])
              {| status_code := 404; content := EmptyString |}
              eq_refl eq_refl) as (Hraise & _ & _ & Habort & _).
  assert (H : DownloadGeoDataset.run (answers 404 EmptyString) default_params
                (Dir mkdir_st_size [])
              = Raise (DownloadFailed 404)).
  { apply Hraise. discriminate. }
  split; [exact H | apply Habort; [exact H | reflexivity ..]].
Defined.

(** ** ProcessProbes: the projection *)





(** ** What a write leaves of the tree *)

Lemma same_but_refl : forall x t, same_but x t t.
Proof. intros x t. split; [|split]; [reflexivity | reflexivity | tauto]. Qed.

Lemma same_but_trans : forall x t1 t2 t3,
  same_but x t1 t2 -> same_but x t2 t3 -> same_but x t1 t3.
Proof.
  intros x t1 t2 t3 (Hr & Hd & Hf) (Hr' & Hd' & Hf').
  split; [congruence | split; [congruence|]].
  intros f Hne. rewrite (Hf f Hne). apply Hf', Hne.
Qed.

Lemma Forall2_same_refl : forall x l, Forall2 (same_but x) l l.
Proof. induction l; constructor; [apply same_but_refl | assumption]. Qed.

Lemma Forall2_same_trans : forall x l1 l2 l3,
  Forall2 (same_but x) l1 l2 -> Forall2 (same_but x) l2 l3 ->
  Forall2 (same_but x) l1 l3.
Proof.
  intros x l1 l2 l3 H. revert l3.
  induction H as [|t1 t2 l1 l2 Ht _ IH]; intros l3 H'; inversion H'; subst.
  - constructor.
  - constructor; [eapply same_but_trans; eassumption | apply IH; assumption].
Qed.

Lemma Forall2_in_right : forall (A : Type) (R : A -> A -> Prop) l l' t',
  Forall2 R l l' -> In t' l' -> exists t, In t l /\ R t t'.
Proof.
  intros A R l l' t' H. induction H as [|a b l l' Hab _ IH]; simpl.
  - contradiction.
  - intros [<-|Hin].
    + exists a. split; [left; reflexivity | exact Hab].
    + destruct (IH Hin) as (t & Ht & HR). exists t. split; [right|]; assumption.
Qed.

Definition not_dir (o : option node) : Prop :=
  match o with Some (Dir _ _) => False | _ => True end.

(** Putting a regular file on a name that is not a directory. *)
Lemma put_file : forall (W : string * node -> list (path * list string * list string))
                        x data es,
  (forall k d, W (k, File d) = []) ->
  not_dir (assoc x es) ->
  dirnames (put x (File data) es) = dirnames es
  /\ (forall f, f <> x ->
        (In f (filenames es) <-> In f (filenames (put x (File data) es))))
  /\ flat_map W (put x (File data) es) = flat_map W es
  /\ incl (map fst es) (map fst (put x (File data) es)).
Proof.
  intros W x data es HW. unfold dirnames, filenames.
  induction es as [|[k v] es IH]; simpl; intros Hnd.
  - rewrite HW. repeat split; try tauto.
    + intros [E|[]]. congruence.
    + intros f [].
  - destruct (String.eqb x k) eqn:E.
    + apply String.eqb_eq in E. subst k.
      destruct v as [d|sz es']; [|contradiction]. simpl.
      rewrite !HW. repeat split; try tauto. apply incl_refl.
    + destruct (IH Hnd) as (Hd & Hf & Hw & Hi). simpl.
      rewrite Hw. split; [|split; [|split]].
      * destruct (is_dir v); simpl; congruence.
      * intros f Hne. specialize (Hf f Hne).
        destruct (is_dir v); simpl; tauto.
      * reflexivity.
      * intros y [<-|Hy]; [left; reflexivity | right; apply Hi, Hy].
Qed.

(** Replacing a directory by a directory. *)
Lemma put_dir : forall (W : string * node -> list (path * list string * list string))
                       x k c c' es,
  assoc k es = Some c -> is_dir c = true -> is_dir c' = true ->
  Forall2 (same_but x) (W (k, c)) (W (k, c')) ->
  dirnames (put k c' es) = dirnames es
  /\ filenames (put k c' es) = filenames es
  /\ Forall2 (same_but x) (flat_map W es) (flat_map W (put k c' es))
  /\ map fst (put k c' es) = map fst es.
Proof.
  intros W x k c c' es Hc Hd Hd' HW. unfold dirnames, filenames.
  induction es as [|[k0 v] es IH]; simpl in *; [discriminate|].
  destruct (String.eqb k k0) eqn:E.
  - apply String.eqb_eq in E. subst k0. injection Hc as ->. simpl.
    rewrite Hd, Hd'. simpl. repeat split.
    apply Forall2_app; [exact HW | apply Forall2_same_refl].
  - destruct (IH Hc) as (H1 & H2 & H3 & H4). simpl.
    rewrite H4. destruct (is_dir v); simpl; rewrite H1, H2; repeat split;
      (apply Forall2_app; [apply Forall2_same_refl | exact H3]).
Qed.

Lemma write_file_dir : forall q x n n' data,
  write_file n (q ++ [x])%list data = Ok n' ->
  is_dir n = true /\ is_dir n' = true.
Proof.
  intros q x n n' data H. destruct n as [d|sz es].
  - destruct q; simpl in H; discriminate H.
  - split; [reflexivity|]. destruct q as [|k q]; simpl in H.
    + destruct (assoc x es) as [[d'|sz' es']|]; simpl in H;
        try discriminate H; injection H as <-; reflexivity.
    + destruct (assoc k es) as [c|].
      * destruct (write_file c (q ++ [x])%list data); simpl in H;
          [|discriminate H].
        injection H as <-. reflexivity.
      * destruct (q ++ [x])%list; [injection H as <-; reflexivity | discriminate H].
Qed.

(** The shape of a write at [q/x]: in the directory [q], the entry [x]
    becomes the file. *)
Lemma write_file_last : forall x n n' data,
  write_file n [x] data = Ok n' ->
  exists sz es,
    n = Dir sz es /\ n' = Dir sz (put x (File data) es)
    /\ not_dir (assoc x es).
Proof.
  intros x n n' data. simpl. destruct n as [d|sz es]; [discriminate|].
  intros H. exists sz, es. split; [reflexivity|].
  destruct (assoc x es) as [[d|sz' es']|]; simpl in *;
    try discriminate H; injection H as <-; split; (reflexivity || exact I).
Qed.

Lemma write_file_cons : forall k q x n n' data,
  write_file n (k :: q ++ [x])%list data = Ok n' ->
  exists sz es c c',
    n = Dir sz es /\ assoc k es = Some c
    /\ write_file c (q ++ [x])%list data = Ok c'
    /\ n' = Dir sz (put k c' es).
Proof.
  intros k q x n n' data. simpl. destruct n as [d|sz es]; [discriminate|].
  destruct (assoc k es) as [c|] eqn:Hc.
  - destruct (write_file c (q ++ [x])%list data) as [c'|] eqn:Hw; simpl;
      [|discriminate].
    intros [= <-]. exists sz, es, c, c'. repeat split; assumption.
  - destruct (q ++ [x])%list eqn:E; [|discriminate].
    apply app_eq_nil in E. destruct E as [_ E]. discriminate E.
Qed.

Lemma walk_node_write : forall q x n n' data top,
  write_file n (q ++ [x])%list data = Ok n' ->
  Forall2 (same_but x) (walk_node top n) (walk_node top n').
Proof.
  induction q as [|k q IH]; intros x n n' data top H.
  - apply write_file_last in H.
    destruct H as (sz & es & -> & -> & Hnd). simpl.
    destruct (put_file (fun e => walk_node (os_path_join top (fst e)) (snd e))
                x data es (fun _ _ => eq_refl) Hnd) as (Hd & Hf & Hw & _).
    rewrite Hd, Hw. constructor; [|apply Forall2_same_refl].
    split; [reflexivity | split; [reflexivity | exact Hf]].
  - apply write_file_cons in H.
    destruct H as (sz & es & c & c' & -> & Hc & Hw & ->). simpl.
    destruct (write_file_dir q x c c' data Hw) as [Hk Hk'].
    destruct (put_dir (fun e => walk_node (os_path_join top (fst e)) (snd e))
                x k c c' es Hc Hk Hk'
                (IH x c c' data (os_path_join top k) Hw))
      as (Hd & Hf & HW & _).
    rewrite Hd, Hf. constructor; [apply same_but_refl | exact HW].
Qed.

Lemma walk_at_write : forall q x fs fs' data base pre,
  write_file fs (q ++ [x])%list data = Ok fs' ->
  Forall2 (same_but x)
    (match lookup fs base with
     | Some n => walk_node (pre ++ base)%list n
     | None => []
     end)
    (match lookup fs' base with
     | Some n => walk_node (pre ++ base)%list n
     | None => []
     end).
Proof.
  induction q as [|k q IH]; intros x fs fs' data base pre H.
  - destruct base as [|b base].
    + simpl. apply (walk_node_write [] x fs fs' data _ H).
    + apply write_file_last in H.
      destruct H as (sz & es & -> & -> & Hnd). simpl.
      destruct (String.eqb b x) eqn:E.
      * apply String.eqb_eq in E. subst b. rewrite assoc_put_same.
        destruct (assoc x es) as [[d|sz' es']|]; [|contradiction|];
          destruct base; simpl; constructor.
      * rewrite (assoc_put_other x b (File data) es E).
        apply Forall2_same_refl.
  - destruct base as [|b base].
    + simpl. apply (walk_node_write (k :: q) x fs fs' data _ H).
    + apply write_file_cons in H.
      destruct H as (sz & es & c & c' & -> & Hc & Hw & ->). simpl.
      destruct (String.eqb b k) eqn:E.
      * apply String.eqb_eq in E. subst b. rewrite assoc_put_same, Hc.
        replace (pre ++ k :: base)%list with ((pre ++ [k]) ++ base)%list
          by (rewrite <- app_assoc; reflexivity).
        apply (IH x c c' data base (pre ++ [k])%list Hw).
      * rewrite (assoc_put_other k b c' es E). apply Forall2_same_refl.
Qed.

Lemma os_walk_write : forall root x fs fs' data base,
  write_file fs (os_path_join root x) data = Ok fs' ->
  Forall2 (same_but x) (os_walk fs base) (os_walk fs' base).
Proof.
  intros root x fs fs' data base H.
  apply (walk_at_write root x fs fs' data base [] H).
Qed.

(** A write keeps every directory, with all the names it listed. *)
Lemma lookup_dir_write : forall q x fs fs' data y sz es,
  write_file fs (q ++ [x])%list data = Ok fs' ->
  lookup fs y = Some (Dir sz es) ->
  exists es',
    lookup fs' y = Some (Dir sz es') /\ incl (map fst es) (map fst es').
Proof.
  induction q as [|k q IH]; intros x fs fs' data y sz es H.
  - apply write_file_last in H.
    destruct H as (sz0 & es0 & -> & -> & Hnd).
    destruct (put_file (fun _ => []) x data es0 (fun _ _ => eq_refl) Hnd)
      as (_ & _ & _ & Hincl).
    destruct y as [|b y]; simpl.
    + intros [= <- <-]. eexists. split; [reflexivity | exact Hincl].
    + destruct (String.eqb b x) eqn:E.
      * apply String.eqb_eq in E. subst b.
        destruct (assoc x es0) as [[d|sz' es']|]; [|contradiction|discriminate].
        intros Hl. apply lookup_file_nil in Hl. destruct Hl as [_ Hl].
        discriminate Hl.
      * rewrite (assoc_put_other x b (File data) es0 E).
        intros Hl. exists es. split; [exact Hl | apply incl_refl].
  - apply write_file_cons in H.
    destruct H as (sz0 & es0 & c & c' & -> & Hc & Hw & ->).
    destruct (write_file_dir q x c c' data Hw) as [Hk Hk'].
    destruct (put_dir (fun _ => []) x k c c' es0 Hc Hk Hk' (Forall2_nil _))
      as (_ & _ & _ & Hnames).
    destruct y as [|b y]; simpl.
    + intros [= <- <-]. eexists. split; [reflexivity|].
      rewrite Hnames. apply incl_refl.
    + destruct (String.eqb b k) eqn:E.
      * apply String.eqb_eq in E. subst b. rewrite assoc_put_same, Hc.
        apply (IH x c c' data y sz es Hw).
      * rewrite (assoc_put_other k b c' es0 E).
        intros Hl. exists es. split; [exact Hl | apply incl_refl].
Qed.

(** ** A second run *)

Lemma kept_refl : forall fs, kept fs fs.
Proof.
  intros fs. split; [|split].
  - intros base. apply Forall2_same_refl.
  - intros y sz es H. exists es. split; [exact H | apply incl_refl].
  - intros q H. exact H.
Qed.

Lemma kept_trans : forall fs1 fs2 fs3,
  kept fs1 fs2 -> kept fs2 fs3 -> kept fs1 fs3.
Proof.
  intros fs1 fs2 fs3 (Hw & Hd & Hf) (Hw' & Hd' & Hf'). split; [|split].
  - intros base. eapply Forall2_same_trans; [apply Hw | apply Hw'].
  - intros y sz es H. destruct (Hd y sz es H) as (es' & H' & Hi).
    destruct (Hd' y sz es' H') as (es'' & H'' & Hi').
    exists es''. split; [exact H''|]. intros x Hx. apply Hi', Hi, Hx.
  - intros q H. apply Hf', Hf, H.
Qed.

Lemma kept_write : forall root fs fs' data,
  data <> EmptyString ->
  write_file fs (os_path_join root "ProbesTrimmed.tsv") data = Ok fs' ->
  kept fs fs' /\ nonempty_file fs' (os_path_join root "ProbesTrimmed.tsv").
Proof.
  intros root fs fs' data Hne Hw.
  assert (Hnew : nonempty_file fs' (os_path_join root "ProbesTrimmed.tsv")).
  { exists data. split; [apply (lookup_write_same _ _ _ _ Hw) | exact Hne]. }
  split; [|exact Hnew]. split; [|split].
  - intros base. apply (os_walk_write root _ fs fs' data base Hw).
  - intros y sz es. apply (lookup_dir_write root _ fs fs' data y sz es Hw).
  - intros q (d & Hq & Hd).
    destruct (list_eq_dec string_dec q (os_path_join root "ProbesTrimmed.tsv"))
      as [->|Hq'].
    + exact Hnew.
    + exists d. split; [|exact Hd].
      apply (lookup_write_other _ _ _ _ _ _ Hw Hq Hq').
Qed.

Lemma check_walk_true : forall fs triples,
  ExtractAndProcessGeoDataset.check_walk fs triples = Ok true <->
  forall root dirs files d,
    In (root, dirs, files) triples -> In d dirs ->
    exists names,
      os_listdir fs (os_path_join root d) = Ok names
      /\ existsb (endswith ".tsv") names = true.
Proof.
  intros fs.
  assert (Hdirs : forall root dirs,
    ExtractAndProcessGeoDataset.check_dirs fs root dirs = Ok true <->
    forall d, In d dirs ->
      exists names,
        os_listdir fs (os_path_join root d) = Ok names
        /\ existsb (endswith ".tsv") names = true).
  { intros root. induction dirs as [|d dirs IH]; simpl.
    - split; [intros _ d [] | reflexivity].
    - destruct (os_listdir fs (os_path_join root d)) as [names|e] eqn:Hn; simpl.
      + rewrite filter_none_existsb.
        destruct (existsb (endswith ".tsv") names) eqn:Ht; simpl.
        * rewrite IH. split.
          -- intros H x [<-|Hx]; [exists names; split; assumption | apply H, Hx].
          -- intros H x Hx. apply H. right. exact Hx.
        * split; [discriminate|]. intros H.
          destruct (H d (or_introl eq_refl)) as (names' & Hn' & Ht').
          rewrite Hn in Hn'. injection Hn' as <-. congruence.
      + split; [discriminate|]. intros H.
        destruct (H d (or_introl eq_refl)) as (names' & Hn' & _).
        rewrite Hn in Hn'. discriminate Hn'. }
  induction triples as [|[[root dirs] files] triples IH]; simpl.
  - split; [intros _ ? ? ? ? [] | reflexivity].
  - destruct (ExtractAndProcessGeoDataset.check_dirs fs root dirs)
      as [[|]|e] eqn:Hc; simpl.
    + rewrite IH. pose proof (proj1 (Hdirs root dirs) Hc) as Hc'. split.
      * intros H r ds fl d [[= <- <- <-]|Ht] Hd;
          [apply Hc', Hd | apply (H r ds fl d Ht Hd)].
      * intros H r ds fl d Ht Hd. apply (H r ds fl d); [right; exact Ht | exact Hd].
    + split; [discriminate|]. intros H.
      assert (Hok : ExtractAndProcessGeoDataset.check_dirs fs root dirs = Ok true).
      { apply Hdirs. intros d Hd.
        apply (H root dirs files d); [left; reflexivity | exact Hd]. }
      congruence.
    + split; [discriminate|]. intros H.
      assert (Hok : ExtractAndProcessGeoDataset.check_dirs fs root dirs = Ok true).
      { apply Hdirs. intros d Hd.
        apply (H root dirs files d); [left; reflexivity | exact Hd]. }
      congruence.
Qed.

Lemma existsb_incl : forall (f : string -> bool) l l',
  incl l l' -> existsb f l = true -> existsb f l' = true.
Proof.
  intros f l l' Hi H. apply existsb_exists in H. destruct H as (x & Hx & Hf).
  apply existsb_exists. exists x. split; [apply Hi, Hx | exact Hf].
Qed.

Lemma extract_complete_kept : forall p fs fs',
  kept fs fs' ->
  ExtractAndProcessGeoDataset.complete p fs = Ok true ->
  ExtractAndProcessGeoDataset.complete p fs' = Ok true.
Proof.
  intros p fs fs' (Hw & Hd & _).
  unfold ExtractAndProcessGeoDataset.complete, os_path_isdir.
  destruct (lookup fs (ExtractAndProcessGeoDataset.output p))
    as [[d|sz es]|] eqn:Htop; simpl; try discriminate.
  destruct (Hd _ sz es Htop) as (es' & Htop' & _). rewrite Htop'. simpl.
  rewrite !check_walk_true. intros H root dirs files d Ht Hin.
  destruct (Forall2_in_right _ _ _ _ _ (Hw (ExtractAndProcessGeoDataset.output p)) Ht)
    as ([[r ds] fl] & Ht0 & Hr & Hds & _).
  simpl in Hr, Hds. subst r ds.
  destruct (H root dirs fl d Ht0 Hin) as (names & Hn & Htsv).
  unfold os_listdir in *.
  destruct (lookup fs (os_path_join root d)) as [[x|sz1 es1]|] eqn:Hl;
    try discriminate Hn.
  injection Hn as <-.
  destruct (Hd _ sz1 es1 Hl) as (es1' & Hl' & Hi). rewrite Hl'.
  exists (map fst es1'). split; [reflexivity|].
  apply (existsb_incl _ _ _ Hi Htsv).
Qed.

Lemma nonempty_file_trimmed : forall fs root,
  nonempty_file fs (os_path_join root "ProbesTrimmed.tsv") ->
  trimmed_ok fs root = true.
Proof.
  intros fs root (data & Hl & Hne). unfold trimmed_ok. rewrite Hl. simpl.
  destruct data; [contradiction|]. reflexivity.
Qed.

Lemma has_probes_exists : forall p fs,
  has_probes p fs = true <->
  exists root dirs files,
    In (root, dirs, files) (os_walk fs (ProcessProbes.base_path p))
    /\ In "Probes.tsv" files.
Proof.
  intros p fs. unfold has_probes. rewrite existsb_exists. split.
  - intros ([[root dirs] files] & Ht & Hp). exists root, dirs, files.
    split; [exact Ht | apply str_in_In, Hp].
  - intros (root & dirs & files & Ht & Hp). exists (root, dirs, files).
    split; [exact Ht | apply str_in_In, Hp].
Qed.

Lemma probes_complete_true : forall p fs,
  ProcessProbes.complete p fs = Ok true -> has_probes p fs = true.
Proof.
  intros p fs. unfold ProcessProbes.complete.
  destruct (complete_loop_spec fs (os_walk fs (ProcessProbes.base_path p)) false)
    as (f & a & Hrun & Hiff).
  rewrite Hrun. simpl. intros [= H]. apply Hiff in H.
  destruct H as [[H|H] _]; [discriminate H | apply has_probes_exists, H].
Qed.

Lemma probes_complete_after : forall p fs fs',
  kept fs fs' ->
  (forall root dirs files,
      In (root, dirs, files) (os_walk fs (ProcessProbes.base_path p)) ->
      In "Probes.tsv" files ->
      nonempty_file fs' (os_path_join root "ProbesTrimmed.tsv")) ->
  ProcessProbes.complete p fs' = Ok (has_probes p fs').
Proof.
  intros p fs fs' (Hw & _ & _) Hall. unfold ProcessProbes.complete.
  destruct (complete_loop_spec fs' (os_walk fs' (ProcessProbes.base_path p)) false)
    as (f & a & Hrun & Hiff).
  rewrite Hrun. simpl. f_equal.
  apply eq_true_iff_eq. rewrite Hiff, has_probes_exists. split.
  - intros [[H|H] _]; [discriminate H | exact H].
  - intros H. split; [right; exact H|].
    intros root dirs files Ht Hp.
    destruct (Forall2_in_right _ _ _ _ _ (Hw (ProcessProbes.base_path p)) Ht)
      as ([[r ds] fl] & Ht0 & Hr & _ & Hf).
    simpl in Hr, Hf. subst r.
    apply nonempty_file_trimmed, (Hall root ds fl Ht0).
    apply Hf; [discriminate | exact Hp].
Qed.

Section SecondRun.

Variable w : world.
Variable p : Params.

(** pandas writes at least the line terminator of the header line. *)
Hypothesis to_csv_not_empty : forall df, to_csv (pd w) df <> EmptyString.

Lemma trim_all_post : forall triples fs fs',
  ProcessProbes.trim_all w fs triples = Ok fs' ->
  kept fs fs'
  /\ forall root dirs files,
      In (root, dirs, files) triples -> In "Probes.tsv" files ->
      nonempty_file fs' (os_path_join root "ProbesTrimmed.tsv").
Proof.
  induction triples as [|[[root dirs] files] triples IH]; intros fs fs'; simpl.
  - intros [= <-]. split; [apply kept_refl | intros ? ? ? []].
  - destruct (str_in "Probes.tsv" files) eqn:Hp.
    + destruct (ProcessProbes.trim w fs root) as [fa|] eqn:Ht; simpl;
        [|discriminate].
      intros Hrest. destruct (IH fa fs' Hrest) as [Hk Hall].
      assert (Hstep : kept fs fa
                      /\ nonempty_file fa (os_path_join root "ProbesTrimmed.tsv")).
      { unfold ProcessProbes.trim in Ht.
        destruct (read_file fs (os_path_join root "Probes.tsv")); simpl in Ht;
          [|discriminate Ht].
        destruct (read_csv (pd w) HeaderInfer a) as [df|]; simpl in Ht;
          [|discriminate Ht].
        apply (kept_write root fs fa _ (to_csv_not_empty _) Ht). }
      destruct Hstep as [Hk0 Hnew]. split; [apply (kept_trans _ _ _ Hk0 Hk)|].
      intros r ds fl [[= <- <- <-]|Hin] Hpr.
      * destruct Hk as (_ & _ & Hf). apply Hf, Hnew.
      * apply (Hall r ds fl Hin Hpr).
    + intros Hrest. destruct (IH fs fs' Hrest) as [Hk Hall]. split; [exact Hk|].
      intros r ds fl [[= <- <- <-]|Hin] Hpr.
      * apply str_in_In in Hpr. congruence.
      * apply (Hall r ds fl Hin Hpr).
Qed.

Lemma run_without_probes : forall fs,
  has_probes p fs = false -> ProcessProbes.run w p fs = Ok fs.
Proof.
  intros fs. unfold has_probes, ProcessProbes.run.
  generalize (os_walk fs (ProcessProbes.base_path p)).
  induction l as [|[[root dirs] files] l IH]; simpl; [reflexivity|].
  intros H. apply orb_false_iff in H. destruct H as [Hp Hl].
  rewrite Hp. apply IH, Hl.
Qed.

(** C4 (amended): after a run of the whole pipeline that returned, a
    second run on the tree it left returns the same tree and calls neither
    the Fetch nor the Extract action.  It calls no action at all when the
    extraction tree holds a Probes.tsv; when it holds none the Project
    predicate is false and the Project action, and only it, is called
    again.  (pandas never writes an empty file.) *)
Theorem second_run_changes_nothing : forall (fs0 fs1 : node) (ran : list Luigi.task),
  Luigi.pipeline w p fs0 = Ok (fs1, ran) ->
  Luigi.pipeline w p fs1
  = Ok (fs1, if has_probes p fs1 then [] else [Luigi.Probes]).
Proof.
  intros fs0 fs1 ran. unfold Luigi.pipeline, Luigi.build. simpl.
  destruct (ProcessProbes.complete p fs0) as [[|]|] eqn:Hp0; simpl;
    [| |discriminate].
  - intros [= <- <-]. rewrite Hp0. simpl.
    rewrite (probes_complete_true p fs0 Hp0). reflexivity.
  - destruct (bind (ExtractAndProcessGeoDataset.complete p fs0) _)
      as [[fsm ran']|]; simpl; [|discriminate].
    destruct (ExtractAndProcessGeoDataset.complete p fsm) as [[|]|] eqn:Hx;
      simpl; try discriminate.
    destruct (ProcessProbes.run w p fsm) as [fs'|] eqn:Hrun; simpl;
      [|discriminate].
    intros [= <- <-].
    destruct (trim_all_post _ fsm fs' Hrun) as [Hk Hall].
    rewrite (probes_complete_after p fsm fs' Hk Hall).
    pose proof (extract_complete_kept p fsm fs' Hk Hx) as Hx'.
    destruct (has_probes p fs') eqn:Hh; simpl; [reflexivity|].
    rewrite Hx'. simpl. rewrite Hx'. simpl.
    rewrite (run_without_probes fs' Hh). reflexivity.
Qed.

End SecondRun.

Lemma ref_to_csv_not_empty : forall df, to_csv ref_pandas df <> EmptyString.
Proof.
  intros df. simpl. unfold ref_to_csv, csv_line. simpl.
  destruct (str_join tab (map label_str (columns df))); discriminate.
Qed.

(** C4 as stated fails: the archive holds no section Probes; the first
    run calls the three actions and returns, and the second run, on the
    tree the first one left, calls the Project action again. *)
Lemma second_run_projects_again :
  Luigi.pipeline (one_member data_only_text) default_params
    (Dir mkdir_st_size [])
  = Ok (after_data_only, [Luigi.Download; Luigi.Extract; Luigi.Probes])
  /\ Luigi.pipeline (one_member data_only_text) default_params after_data_only
     = Ok (after_data_only, [Luigi.Probes]).
Proof. split; vm_compute; reflexivity. Qed.

(** An archive with a section Probes: the second run calls nothing. *)
Lemma second_run_changes_nothing_witness :
  Luigi.pipeline (one_member probes_text) default_params (Dir mkdir_st_size [])
  = Ok (after_probes, [Luigi.Download; Luigi.Extract; Luigi.Probes])
  /\ Luigi.pipeline (one_member probes_text) default_params after_probes
     = Ok (after_probes, []).
Proof.
  assert (H : Luigi.pipeline (one_member probes_text) default_params
                (Dir mkdir_st_size [])
              = Ok (after_probes, [Luigi.Download; Luigi.Extract; Luigi.Probes]))
    by (vm_compute; reflexivity).
  split; [exact H|].
  exact (second_run_changes_nothing (one_member probes_text) default_params
           ref_to_csv_not_empty (Dir mkdir_st_size []) after_probes _ H).
Defined.

(** * Further properties *)

(** ** The parser, line by line *)

Lemma str_rev_onto_twice : forall l a b,
  str_rev_onto (str_rev_onto l a) b = str_rev_onto a (l ++ b).
Proof.
  induction l as [|c l IH]; intros a b; simpl; [reflexivity|].
  rewrite IH. reflexivity.
Qed.

Lemma splitlines_from_line : forall l acc rest,
  no_linebreak l = true ->
  splitlines_from acc (l ++ nl ++ rest)
  = str_rev (str_rev_onto l acc) :: splitlines rest.
Proof.
  induction l as [|c l IH]; intros acc rest; simpl.
  - intros _. destruct rest; reflexivity.
  - intros H. apply andb_prop in H. destruct H as [Hc Hl].
    apply negb_true_iff in Hc. rewrite Hc. apply IH, Hl.
Qed.

Lemma splitlines_buffer : forall ls rest,
  forallb no_linebreak ls = true ->
  splitlines (buffer_of ls ++ rest) = (ls ++ splitlines rest)%list.
Proof.
  unfold buffer_of. induction ls as [|l ls IH]; intros rest; simpl.
  - reflexivity.
  - intros H. apply andb_prop in H. destruct H as [Hl Hls].
    rewrite !str_app_assoc. unfold splitlines at 1.
    rewrite (splitlines_from_line l EmptyString _ Hl).
    unfold str_rev. rewrite str_rev_onto_twice. simpl.
    rewrite str_app_nil_r. f_equal. apply IH, Hls.
Qed.

Section ScanLines.

Variable pd : pandas.
Variable output_dir : path.

Lemma scan_app : forall a b st,
  Parser.scan pd output_dir st (a ++ b)%list
  = st' <- Parser.scan pd output_dir st a ;; Parser.scan pd output_dir st' b.
Proof.
  induction a as [|l a IH]; intros b st; simpl; [reflexivity|].
  destruct (Parser.step pd output_dir st l); simpl; [apply IH | reflexivity].
Qed.

Lemma step_data_line : forall st l,
  negb (startswith "[" l) = true ->
  Parser.step pd output_dir st l
  = match Parser.key_open (Parser.current_key st) with
    | Some _ =>
        Ok {| Parser.data_frames := Parser.data_frames st;
              Parser.current_key := Parser.current_key st;
              Parser.string_io := Parser.string_io st ++ l ++ nl;
              Parser.fs := Parser.fs st |}
    | None => Ok st
    end.
Proof.
  intros st l H. apply negb_true_iff in H. unfold Parser.step.
  rewrite H. reflexivity.
Qed.

Lemma scan_closed : forall ds st,
  Parser.key_open (Parser.current_key st) = None ->
  forallb (fun l => negb (startswith "[" l)) ds = true ->
  Parser.scan pd output_dir st ds = Ok st.
Proof.
  induction ds as [|l ds IH]; intros st Hk; cbn [Parser.scan forallb];
    [reflexivity|].
  intros H. apply andb_prop in H. destruct H as [Hl Hds].
  rewrite (step_data_line st l Hl), Hk. cbn [bind].
  apply IH; assumption.
Qed.

Lemma scan_open : forall ds st key,
  Parser.key_open (Parser.current_key st) = Some key ->
  forallb (fun l => negb (startswith "[" l)) ds = true ->
  Parser.scan pd output_dir st ds
  = Ok {| Parser.data_frames := Parser.data_frames st;
          Parser.current_key := Parser.current_key st;
          Parser.string_io := Parser.string_io st ++ buffer_of ds;
          Parser.fs := Parser.fs st |}.
Proof.
  induction ds as [|l ds IH]; intros st key Hk; cbn [Parser.scan forallb].
  - intros _. unfold buffer_of. cbn [map str_concat].
    rewrite str_app_nil_r. destruct st; reflexivity.
  - intros H. apply andb_prop in H. destruct H as [Hl Hds].
    rewrite (step_data_line st l Hl), Hk. cbn [bind].
    rewrite (IH _ key); [|exact Hk | exact Hds].
    cbn [Parser.data_frames Parser.current_key Parser.string_io Parser.fs].
    unfold buffer_of. cbn [map str_concat]. rewrite !str_app_assoc.
    reflexivity.
Qed.

End ScanLines.

Lemma data_lines_no_bracket : forall ds,
  forallb data_line ds = true ->
  forallb (fun l => negb (startswith "[" l)) ds = true
  /\ forallb no_linebreak ds = true.
Proof.
  induction ds as [|l ds IH]; cbn [forallb]; [split; reflexivity|].
  intros H. apply andb_prop in H. destruct H as [Hl Hds].
  unfold data_line in Hl. apply andb_prop in Hl. destruct Hl as [Hb Hs].
  destruct (IH Hds) as [H1 H2]. rewrite Hb, Hs, H1, H2. split; reflexivity.
Qed.

(** X1: a text in which no line starts with a bracket (the empty text is
    one) is read to its end without any call to pandas: the parser
    returns and leaves the tree as it was. *)
Theorem no_header_writes_nothing :
  forall (pd : pandas) (output_dir : path) (fs : node) (content : string),
    forallb (fun l => negb (startswith "[" l)) (splitlines content) = true ->
    Parser._process_content pd output_dir fs content = Ok fs.
Proof.
  intros pd output_dir fs content H. unfold Parser._process_content.
  rewrite (scan_closed pd output_dir _ (Parser.init fs) eq_refl H).
  reflexivity.
Qed.

(** The text "junk\nmore" holds no header. *)
Lemma no_header_writes_nothing_witness :
  Parser._process_content ref_pandas out_dir empty_out ("junk" ++ nl ++ "more")
  = Ok empty_out.
Proof.
  exact (no_header_writes_nothing ref_pandas out_dir empty_out
           ("junk" ++ nl ++ "more") eq_refl).
Defined.

(** X2: lines that come before the first header are ignored: a text that
    starts with data lines is parsed as the text without them. *)
Theorem preamble_is_ignored :
  forall (pd : pandas) (output_dir : path) (fs : node)
         (preamble : list string) (content : string),
    forallb data_line preamble = true ->
    Parser._process_content pd output_dir fs (buffer_of preamble ++ content)
    = Parser._process_content pd output_dir fs content.
Proof.
  intros pd output_dir fs preamble content H.
  destruct (data_lines_no_bracket preamble H) as [Hb Hl].
  unfold Parser._process_content.
  rewrite (splitlines_buffer preamble content Hl), scan_app.
  rewrite (scan_closed pd output_dir preamble (Parser.init fs) eq_refl Hb).
  reflexivity.
Qed.

(** "junk\n[A]\nx\n" gives A.tsv alone, with the line x. *)
Lemma preamble_is_ignored_witness :
  Parser._process_content ref_pandas out_dir empty_out
    (buffer_of ["junk"] ++ "[A]" ++ nl ++ "x" ++ nl)
  = Ok (Dir 0 [("out", Dir mkdir_st_size [("A.tsv", File ("x" ++ nl))])]).
Proof.
  rewrite (preamble_is_ignored ref_pandas out_dir empty_out ["junk"]
             ("[A]" ++ nl ++ "x" ++ nl) eq_refl).
  reflexivity.
Defined.

(** ** The parser, section by section *)

Section BySections.

Variable pd : pandas.
Variable output_dir : path.

(** The section that is open in a state, with its buffer. *)
Definition pending (st : Parser.state) : option (string * string) :=
  match Parser.key_open (Parser.current_key st) with
  | Some key => Some (key, Parser.string_io st)
  | None => None
  end.

Lemma materialize_cases : forall header key st,
  (exists st0,
      Parser.materialize pd output_dir header key st = Ok st0
      /\ write_table pd output_dir header key (Parser.string_io st) (Parser.fs st)
         = Ok (Parser.fs st0))
  \/ (exists e,
         Parser.materialize pd output_dir header key st = Raise e
         /\ write_table pd output_dir header key (Parser.string_io st)
              (Parser.fs st)
            = Raise e).
Proof.
  intros header key st. unfold Parser.materialize, write_table.
  destruct (read_csv pd header (Parser.string_io st)) as [df|e]; cbn [bind].
  - destruct (write_file _ _ _) as [fs'|e]; cbn [bind].
    + left. eexists. split; reflexivity.
    + right. exists e. split; reflexivity.
  - right. exists e. split; reflexivity.
Qed.

Lemma key_open_some : forall key,
  Parser.key_open (Some key) = if str_truthy key then Some key else None.
Proof. reflexivity. Qed.

Lemma scan_sections : forall secs st,
  forallb well_formed_section secs = true ->
  (st' <- Parser.scan pd output_dir st (flat_map section_lines secs) ;;
   st'' <- Parser.finish pd output_dir st' ;;
   Ok (Parser.fs st''))
  = write_sections pd output_dir (pending st) (Parser.fs st) secs.
Proof.
  induction secs as [|[h ds] secs IH]; intros st;
    cbn [forallb flat_map write_sections].
  - intros _. cbn [Parser.scan bind]. unfold Parser.finish, pending.
    destruct (Parser.key_open (Parser.current_key st)) as [key|];
      [|reflexivity].
    destruct (materialize_cases HeaderInfer key st)
      as [(st0 & -> & ->)|(e & -> & ->)]; reflexivity.
  - intros H. apply andb_prop in H. destruct H as [Hsec Hsecs].
    unfold well_formed_section in Hsec. cbn [fst snd] in Hsec.
    apply andb_prop in Hsec. destruct Hsec as [Hh Hds].
    unfold header_line in Hh. apply andb_prop in Hh. destruct Hh as [_ Hh].
    destruct (data_lines_no_bracket ds Hds) as [Hnb _].
    unfold section_lines at 1. cbn [fst snd app Parser.scan].
    assert (Hstep : Parser.step pd output_dir st h
              = st1 <- match Parser.key_open (Parser.current_key st) with
                       | Some open =>
                           Parser.materialize pd output_dir
                             (if String.eqb open "Heading"
                              then HeaderNone else HeaderInfer) open st
                       | None => Ok st
                       end ;;
                Ok {| Parser.data_frames := Parser.data_frames st1;
                      Parser.current_key := Some (strip ("[]" ++ nl) h);
                      Parser.string_io := EmptyString;
                      Parser.fs := Parser.fs st1 |}).
    { unfold Parser.step. rewrite Hh. reflexivity. }
    rewrite Hstep. clear Hstep.
    assert (Hnext : forall st1,
      (st' <- Parser.scan pd output_dir
                {| Parser.data_frames := Parser.data_frames st1;
                   Parser.current_key := Some (strip ("[]" ++ nl) h);
                   Parser.string_io := EmptyString;
                   Parser.fs := Parser.fs st1 |}
                (ds ++ flat_map section_lines secs)%list ;;
       st'' <- Parser.finish pd output_dir st' ;;
       Ok (Parser.fs st''))
      = write_sections pd output_dir
          (if str_truthy (strip ("[]" ++ nl) h)
           then Some (strip ("[]" ++ nl) h, buffer_of ds) else None)
          (Parser.fs st1) secs).
    { intros st1. rewrite scan_app.
      destruct (str_truthy (strip ("[]" ++ nl) h)) eqn:Hkey.
      - rewrite (scan_open pd output_dir ds _ (strip ("[]" ++ nl) h));
          [|cbn [Parser.current_key]; rewrite key_open_some, Hkey; reflexivity
           |exact Hnb].
        cbn [bind]. rewrite (IH _ Hsecs). unfold pending.
        cbn [Parser.current_key Parser.string_io Parser.fs].
        rewrite key_open_some, Hkey. reflexivity.
      - rewrite (scan_closed pd output_dir ds);
          [|cbn [Parser.current_key]; rewrite key_open_some, Hkey; reflexivity
           |exact Hnb].
        cbn [bind]. rewrite (IH _ Hsecs). unfold pending.
        cbn [Parser.current_key Parser.string_io Parser.fs].
        rewrite key_open_some, Hkey. reflexivity. }
    unfold pending.
    destruct (Parser.key_open (Parser.current_key st)) as [open|].
    + destruct (materialize_cases
                  (if String.eqb open "Heading" then HeaderNone else HeaderInfer)
                  open st) as [(st0 & -> & ->)|(e & -> & ->)]; cbn [bind].
      * apply Hnext.
      * reflexivity.
    + cbn [bind]. apply Hnext.
Qed.

End BySections.

Lemma section_lines_no_linebreak : forall secs,
  forallb well_formed_section secs = true ->
  forallb no_linebreak (flat_map section_lines secs) = true.
Proof.
  induction secs as [|[h ds] secs IH]; cbn [forallb flat_map]; [reflexivity|].
  intros H. apply andb_prop in H. destruct H as [Hsec Hsecs].
  unfold well_formed_section in Hsec. cbn [fst snd] in Hsec.
  apply andb_prop in Hsec. destruct Hsec as [Hh Hds].
  unfold header_line in Hh. apply andb_prop in Hh. destruct Hh as [Hh _].
  destruct (data_lines_no_bracket ds Hds) as [_ Hl].
  unfold section_lines at 1. cbn [fst snd app forallb].
  rewrite Hh, forallb_app, Hl, (IH Hsecs). reflexivity.
Qed.

Lemma splitlines_sections : forall secs,
  forallb well_formed_section secs = true ->
  splitlines (sections_text secs) = flat_map section_lines secs.
Proof.
  intros secs H. unfold sections_text.
  rewrite <- (str_app_nil_r (buffer_of (flat_map section_lines secs))).
  rewrite (splitlines_buffer _ EmptyString (section_lines_no_linebreak secs H)).
  apply app_nil_r.
Qed.

Lemma process_content_scan : forall pd output_dir fs content,
  Parser._process_content pd output_dir fs content
  = st' <- Parser.scan pd output_dir (Parser.init fs) (splitlines content) ;;
    st'' <- Parser.finish pd output_dir st' ;;
    Ok (Parser.fs st'').
Proof. reflexivity. Qed.

(** X3: a text made of sections, each a header line and its data lines,
    is parsed section by section, in order: the table of a section is
    read from the text of its own data lines, each followed by LF, and
    written to the file of its name; a section closed by the next header
    is read without header row when its name is Heading and with the
    inferred header otherwise, the last one always with the inferred
    header; a header whose name is empty opens no section; the first
    failure of pandas or of the write ends the parse. *)
Theorem parser_by_sections :
  forall (pd : pandas) (output_dir : path) (fs : node) (secs : sections),
    forallb well_formed_section secs = true ->
    Parser._process_content pd output_dir fs (sections_text secs)
    = write_sections pd output_dir None fs secs.
Proof.
  intros pd output_dir fs secs H.
  rewrite process_content_scan, (splitlines_sections secs H).
  rewrite (scan_sections pd output_dir secs (Parser.init fs) H).
  reflexivity.
Qed.

(** The text of the sections Heading (one line) and Data (two lines). *)
Lemma parser_by_sections_witness :
  Parser._process_content ref_pandas out_dir empty_out roundtrip_input
  = write_sections ref_pandas out_dir None empty_out
      [("[Heading]", ["foo" ++ tab ++ "bar"]);
       ("[Data]", ["col1" ++ tab ++ "col2"; "1" ++ tab ++ "2"])].
Proof.
  exact (parser_by_sections ref_pandas out_dir empty_out
           [("[Heading]", ["foo" ++ tab ++ "bar"]);
            ("[Data]", ["col1" ++ tab ++ "col2"; "1" ++ tab ++ "2"])]
           eq_refl).
Defined.

Lemma lstrip_all_in : forall chars s,
  all_in chars s = true -> lstrip chars s = EmptyString.
Proof.
  induction s as [|c s IH]; cbn [all_in lstrip]; [reflexivity|].
  intros H. apply andb_prop in H. destruct H as [Hc Hs].
  rewrite Hc. apply IH, Hs.
Qed.

(** X4: a header line made of brackets only has an empty name, which
    opens no section: at the head of a text, the header and the data
    lines under it are dropped, and the parse is that of the sections
    that follow. *)
Theorem bracket_only_header_opens_nothing :
  forall (pd : pandas) (output_dir : path) (fs : node)
         (h : string) (ds : list string) (secs : sections),
    all_in "[]" h = true ->
    forallb well_formed_section ((h, ds) :: secs) = true ->
    Parser._process_content pd output_dir fs (sections_text ((h, ds) :: secs))
    = Parser._process_content pd output_dir fs (sections_text secs).
Proof.
  intros pd output_dir fs h ds secs Hall Hwf.
  assert (Hsecs : forallb well_formed_section secs = true).
  { cbn [forallb] in Hwf. apply andb_prop in Hwf. apply Hwf. }
  rewrite !process_content_scan.
  rewrite (splitlines_sections _ Hwf), (splitlines_sections _ Hsecs).
  rewrite (scan_sections pd output_dir _ (Parser.init fs) Hwf).
  rewrite (scan_sections pd output_dir _ (Parser.init fs) Hsecs).
  change (pending (Parser.init fs)) with (@None (string * string)).
  cbn [write_sections bind].
  assert (Hkey : strip ("[]" ++ nl) h = EmptyString).
  { unfold strip. rewrite lstrip_all_in; [reflexivity|].
    clear - Hall. induction h as [|c h IH]; [reflexivity|].
    cbn [all_in] in *. apply andb_prop in Hall. destruct Hall as [Hc Hh].
    rewrite (IH Hh), andb_true_r.
    cbn [char_in append] in *. apply orb_prop in Hc.
    destruct Hc as [->|Hc]; [reflexivity|].
    apply orb_prop in Hc. destruct Hc as [->|Hc];
      [apply orb_true_r | discriminate Hc]. }
  rewrite Hkey. reflexivity.
Qed.

(** "[]\nx\n[A]\ny\n" is parsed as "[A]\ny\n". *)
Lemma bracket_only_header_opens_nothing_witness :
  Parser._process_content ref_pandas out_dir empty_out
    (sections_text [("[]", ["x"]); ("[A]", ["y"])])
  = Ok (Dir 0 [("out", Dir mkdir_st_size [("A.tsv", File ("y" ++ nl))])]).
Proof.
  rewrite (bracket_only_header_opens_nothing ref_pandas out_dir empty_out
             "[]" ["x"] [("[A]", ["y"])] eq_refl eq_refl).
  reflexivity.
Defined.

(** ** What the stages leave untouched *)

Lemma assoc_del_other : forall k k' es,
  String.eqb k' k = false -> assoc k' (del k es) = assoc k' es.
Proof.
  induction es as [|[k0 v0] es IH]; cbn [del assoc]; intros Hk; [reflexivity|].
  destruct (String.eqb k k0) eqn:E.
  - apply String.eqb_eq in E. subst k0. rewrite Hk. reflexivity.
  - cbn [assoc]. destruct (String.eqb k' k0); [reflexivity | apply IH, Hk].
Qed.

Lemma makedirs_keeps_file : forall p n n' q data,
  os_makedirs n p = Ok n' ->
  lookup n q = Some (File data) -> lookup n' q = Some (File data).
Proof.
  induction p as [|k p IH]; intros n n' q data; cbn [os_makedirs].
  - destruct n; [discriminate | intros [= <-]; exact (fun H => H)].
  - destruct n as [|sz es]; [discriminate|].
    destruct q as [|b q]; [discriminate|]. cbn [lookup].
    destruct (assoc k es) as [c|] eqn:Hc.
    + destruct (os_makedirs c p) as [c'|] eqn:Hm; cbn [bind]; [|discriminate].
      intros [= <-]. cbn [lookup].
      destruct (String.eqb b k) eqn:E.
      * apply String.eqb_eq in E. subst b. rewrite assoc_put_same, Hc.
        apply (IH c c' q data Hm).
      * rewrite (assoc_put_other k b c' es E). exact (fun H => H).
    + destruct (os_makedirs (Dir mkdir_st_size []) p) as [c'|] eqn:Hm;
        cbn [bind]; [|discriminate].
      intros [= <-]. cbn [lookup].
      destruct (String.eqb b k) eqn:E.
      * apply String.eqb_eq in E. subst b. rewrite Hc. discriminate.
      * rewrite (assoc_put_other k b c' es E). exact (fun H => H).
Qed.

Lemma remove_keeps_file : forall q0 n n' q data,
  os_remove n q0 = Ok n' ->
  lookup n q = Some (File data) -> q <> q0 ->
  lookup n' q = Some (File data).
Proof.
  induction q0 as [|k q0 IH]; intros n n' q data; cbn [os_remove];
    [discriminate|].
  destruct n as [|sz es]; [discriminate|].
  destruct (assoc k es) as [c|] eqn:Hc; [|discriminate].
  destruct q as [|b q]; [discriminate|]. cbn [lookup].
  destruct q0 as [|k0 q0].
  - destruct c as [d|sz' es']; [|discriminate].
    intros [= <-] Hl Hne. cbn [lookup].
    destruct (String.eqb b k) eqn:E.
    + apply String.eqb_eq in E. subst b. rewrite Hc in Hl.
      apply lookup_file_nil in Hl. destruct Hl as [-> _]. contradiction.
    + rewrite (assoc_del_other k b es E). exact Hl.
  - destruct (os_remove c (k0 :: q0)) as [c'|] eqn:Hr; cbn [bind];
      [|discriminate].
    intros [= <-] Hl Hne. cbn [lookup].
    destruct (String.eqb b k) eqn:E.
    + apply String.eqb_eq in E. subst b. rewrite assoc_put_same.
      rewrite Hc in Hl. apply (IH c c' q data Hr Hl). congruence.
    + rewrite (assoc_put_other k b c' es E). exact Hl.
Qed.

Section ParserFrame.

Variable pd : pandas.
Variable output_dir : path.
Variable q : path.
Variable data : string.

Hypothesis not_a_table :
  forall key, q <> os_path_join output_dir (key ++ ".tsv").

Let kept_in (st : Parser.state) : Prop :=
  lookup (Parser.fs st) q = Some (File data).

Lemma materialize_keeps : forall header key st st',
  Parser.materialize pd output_dir header key st = Ok st' ->
  kept_in st -> kept_in st'.
Proof.
  unfold kept_in. intros header key st st'. unfold Parser.materialize.
  destruct (read_csv pd header (Parser.string_io st)) as [df|];
    cbn [bind]; [|discriminate].
  destruct (write_file _ _ _) as [fs'|] eqn:Hw; cbn [bind]; [|discriminate].
  intros [= <-] Hl. cbn [Parser.fs].
  apply (lookup_write_other _ _ _ _ _ _ Hw Hl (not_a_table key)).
Qed.

Lemma step_keeps : forall st line st',
  Parser.step pd output_dir st line = Ok st' -> kept_in st -> kept_in st'.
Proof.
  intros st line st'. unfold Parser.step.
  destruct (startswith "[" line).
  - destruct (Parser.key_open (Parser.current_key st)) as [key|].
    + destruct (Parser.materialize pd output_dir _ key st) as [st1|] eqn:Hm;
        cbn [bind]; [|discriminate].
      intros [= <-] Hl. apply (materialize_keeps _ _ _ _ Hm Hl).
    + cbn [bind]. intros [= <-] Hl. exact Hl.
  - destruct (Parser.key_open (Parser.current_key st));
      intros [= <-] Hl; exact Hl.
Qed.

Lemma scan_keeps : forall lines st st',
  Parser.scan pd output_dir st lines = Ok st' -> kept_in st -> kept_in st'.
Proof.
  induction lines as [|l lines IH]; intros st st'; cbn [Parser.scan].
  - intros [= <-] Hl. exact Hl.
  - destruct (Parser.step pd output_dir st l) as [st1|] eqn:Hs; cbn [bind];
      [|discriminate].
    intros Hrest Hl. apply (IH st1 st' Hrest), (step_keeps _ _ _ Hs Hl).
Qed.

Lemma process_content_keeps : forall fs content fs',
  Parser._process_content pd output_dir fs content = Ok fs' ->
  lookup fs q = Some (File data) -> lookup fs' q = Some (File data).
Proof.
  intros fs content fs'. unfold Parser._process_content.
  destruct (Parser.scan pd output_dir (Parser.init fs) (splitlines content))
    as [st|] eqn:Hscan; cbn [bind]; [|discriminate].
  unfold Parser.finish.
  destruct (Parser.key_open (Parser.current_key st)) as [key|].
  - destruct (Parser.materialize pd output_dir HeaderInfer key st)
      as [st'|] eqn:Hm; cbn [bind]; [|discriminate].
    intros [= <-] Hl.
    apply (materialize_keeps _ _ _ _ Hm), (scan_keeps _ _ _ Hscan), Hl.
  - cbn [bind]. intros [= <-] Hl. apply (scan_keeps _ _ _ Hscan), Hl.
Qed.

End ParserFrame.


Lemma str_rev_onto_app : forall k p acc,
  str_rev_onto (k ++ p) acc = str_rev_onto p (str_rev_onto k acc).
Proof.
  induction k as [|c k IH]; intros p acc; cbn [append str_rev_onto];
    [reflexivity | apply IH].
Qed.

Lemma str_rev_onto_acc : forall p acc,
  str_rev_onto p acc = str_rev p ++ acc.
Proof.
  unfold str_rev. induction p as [|c p IH]; intros acc; cbn [str_rev_onto].
  - reflexivity.
  - rewrite (IH (String c acc)), (IH (String c EmptyString)).
    rewrite str_app_assoc. reflexivity.
Qed.

Lemma startswith_app : forall a b, startswith a (a ++ b) = true.
Proof.
  induction a as [|c a IH]; intros b; cbn [append startswith]; [reflexivity|].
  rewrite Ascii.eqb_refl. apply IH.
Qed.

Lemma endswith_app : forall k p, endswith p (k ++ p) = true.
Proof.
  intros k p. unfold endswith. unfold str_rev at 2.
  rewrite str_rev_onto_app, str_rev_onto_acc. apply startswith_app.
Qed.


(** ** DownloadGeoDataset *)

(** X6: when the Fetch action returns, the remote had answered 200, the
    destination file holds the whole body, and the Fetch predicate on the
    tree it left is true exactly when the body is not empty. *)
Theorem fetch_then_complete :
  forall (w : world) (p : Params) (fs fs' : node),
    DownloadGeoDataset.run w p fs = Ok fs' ->
    exists response,
      requests_get w
        (DownloadGeoDataset._construct_download_url
           (dataset_series p) (dataset_name p))
      = Ok response
      /\ status_code response = 200%Z
      /\ read_file fs' (DownloadGeoDataset.output p) = Ok (content response)
      /\ DownloadGeoDataset.complete p fs'
         = Ok (str_truthy (content response)).
Proof.
  intros w p fs fs'. unfold DownloadGeoDataset.run.
  destruct (os_makedirs fs (data_directory p)) as [fs1|]; cbn [bind];
    [|discriminate].
  destruct (requests_get w _) as [response|]; cbn [bind]; [|discriminate].
  destruct (Z.eqb_spec (status_code response) 200) as [E|E]; [|discriminate].
  intros Hw. exists response.
  pose proof (lookup_write_same _ _ _ _ Hw) as Hl.
  split; [reflexivity|]. split; [exact E|]. split.
  - unfold read_file. rewrite Hl. reflexivity.
  - unfold DownloadGeoDataset.complete, os_path_isfile, os_path_getsize.
    rewrite Hl. cbn [bind st_size]. destruct (content response); reflexivity.
Qed.

(** A 200 answer with the body TAR on an empty root. *)
Lemma fetch_then_complete_witness :
  exists fs',
    DownloadGeoDataset.run (answers 200 "TAR") default_params
      (Dir mkdir_st_size []) = Ok fs'
    /\ DownloadGeoDataset.complete default_params fs' = Ok true.
Proof.
  eexists. split; [reflexivity|].
  destruct (fetch_then_complete (answers 200 "TAR") default_params
              (Dir mkdir_st_size []) _ eq_refl)
    as (response & Hget & _ & _ & Hc).
  injection Hget as <-. exact Hc.
Defined.

(** X7: the Fetch action writes its destination file and nothing else:
    when it returns, every other regular file of the tree is as it was. *)
Theorem fetch_keeps_other_files :
  forall (w : world) (p : Params) (fs fs' : node) (q : path) (data : string),
    DownloadGeoDataset.run w p fs = Ok fs' ->
    lookup fs q = Some (File data) ->
    q <> DownloadGeoDataset.output p ->
    lookup fs' q = Some (File data).
Proof.
  intros w p fs fs' q data. unfold DownloadGeoDataset.run.
  destruct (os_makedirs fs (data_directory p)) as [fs1|] eqn:Hm; cbn [bind];
    [|discriminate].
  destruct (requests_get w _) as [response|]; cbn [bind]; [|discriminate].
  destruct (status_code response =? 200)%Z; [|discriminate].
  intros Hw Hl Hq.
  apply (lookup_write_other _ _ _ _ _ _ Hw); [|exact Hq].
  apply (makedirs_keeps_file _ _ _ _ _ Hm Hl).
Qed.

(** The notes beside the data directory survive a fetch. *)
Lemma fetch_keeps_other_files_witness :
  exists fs',
    DownloadGeoDataset.run (answers 200 "TAR") default_params root_with_notes
    = Ok fs'
    /\ lookup fs' ["notes.txt"] = Some (File "keep").
Proof.
  eexists. split; [reflexivity|].
  apply (fetch_keeps_other_files (answers 200 "TAR") default_params
           root_with_notes _ ["notes.txt"] "keep");
    [reflexivity | reflexivity | discriminate].
Defined.

(** ** ProcessProbes.run *)

Lemma read_file_lookup : forall fs q text,
  read_file fs q = Ok text <-> lookup fs q = Some (File text).
Proof.
  intros fs q text. unfold read_file.
  destruct (lookup fs q) as [[d|sz es]|]; split; intros H;
    try discriminate H; congruence.
Qed.

Lemma join_inj : forall (r r' : path) (x x' : string),
  os_path_join r x = os_path_join r' x' -> r = r' /\ x = x'.
Proof. intros r r' x x'. apply app_inj_tail. Qed.

Section Projection.

Variable w : world.

Lemma trim_shape : forall fs root fa,
  ProcessProbes.trim w fs root = Ok fa ->
  exists text df,
    read_file fs (os_path_join root "Probes.tsv") = Ok text
    /\ read_csv (pd w) HeaderInfer text = Ok df
    /\ write_file fs (os_path_join root "ProbesTrimmed.tsv")
         (to_csv (pd w) (drop ProcessProbes.columns_to_remove df))
       = Ok fa.
Proof.
  intros fs root fa. unfold ProcessProbes.trim.
  destruct (read_file fs (os_path_join root "Probes.tsv")) as [text|];
    cbn [bind]; [|discriminate].
  destruct (read_csv (pd w) HeaderInfer text) as [df|] eqn:Hcsv; cbn [bind];
    [|discriminate].
  intros H. exists text, df.
  split; [reflexivity | split; [exact Hcsv | exact H]].
Qed.

Lemma trim_keeps : forall fs root fa q data,
  ProcessProbes.trim w fs root = Ok fa ->
  lookup fs q = Some (File data) ->
  q <> os_path_join root "ProbesTrimmed.tsv" ->
  lookup fa q = Some (File data).
Proof.
  intros fs root fa q data Ht Hl Hq.
  destruct (trim_shape fs root fa Ht) as (text & df & _ & _ & Hw).
  apply (lookup_write_other _ _ _ _ _ _ Hw Hl Hq).
Qed.

Lemma trim_all_keeps : forall triples fs fs' q data,
  ProcessProbes.trim_all w fs triples = Ok fs' ->
  lookup fs q = Some (File data) ->
  (forall root, q <> os_path_join root "ProbesTrimmed.tsv") ->
  lookup fs' q = Some (File data).
Proof.
  induction triples as [|[[root dirs] files] triples IH];
    intros fs fs' q data; cbn [ProcessProbes.trim_all].
  - intros [= <-] Hl _. exact Hl.
  - destruct (str_in "Probes.tsv" files); [|apply IH].
    destruct (ProcessProbes.trim w fs root) as [fa|] eqn:Ht; cbn [bind];
      [|discriminate].
    intros Hrest Hl Hq. apply (IH fa fs' q data Hrest); [|exact Hq].
    apply (trim_keeps fs root fa q data Ht Hl (Hq root)).
Qed.

Lemma projected_after_trim : forall fs root fa,
  ProcessProbes.trim w fs root = Ok fa -> projected w fa root.
Proof.
  intros fs root fa Ht.
  destruct (trim_shape fs root fa Ht) as (text & df & Hp & Hcsv & Hw).
  exists text, df. split; [|split; [exact Hcsv|]].
  - apply read_file_lookup. apply read_file_lookup in Hp.
    apply (lookup_write_other _ _ _ _ _ _ Hw Hp).
    intros E. apply join_inj in E. destruct E as [_ E]. discriminate E.
  - apply read_file_lookup, (lookup_write_same _ _ _ _ Hw).
Qed.

Lemma projected_kept_by_trim : forall fs r fa root,
  ProcessProbes.trim w fs r = Ok fa ->
  projected w fs root -> projected w fa root.
Proof.
  intros fs r fa root Ht (text & df & Hp & Hcsv & Htr).
  destruct (list_eq_dec string_dec r root) as [->|Hne].
  - destruct (projected_after_trim fs root fa Ht)
      as (text' & df' & Hp' & Hcsv' & Htr').
    exists text', df'. repeat split; assumption.
  - exists text, df. split; [|split; [exact Hcsv|]].
    + apply read_file_lookup. apply read_file_lookup in Hp.
      apply (trim_keeps fs r fa _ _ Ht Hp).
      intros E. apply join_inj in E. destruct E as [_ E]. discriminate E.
    + apply read_file_lookup. apply read_file_lookup in Htr.
      apply (trim_keeps fs r fa _ _ Ht Htr).
      intros E. apply join_inj in E. destruct E as [E _]. congruence.
Qed.

Lemma projected_kept_by_trim_all : forall triples fs fs' root,
  ProcessProbes.trim_all w fs triples = Ok fs' ->
  projected w fs root -> projected w fs' root.
Proof.
  induction triples as [|[[r dirs] files] triples IH]; intros fs fs' root;
    cbn [ProcessProbes.trim_all].
  - intros [= <-] H. exact H.
  - destruct (str_in "Probes.tsv" files); [|apply IH].
    destruct (ProcessProbes.trim w fs r) as [fa|] eqn:Ht; cbn [bind];
      [|discriminate].
    intros Hrest H. apply (IH fa fs' root Hrest).
    apply (projected_kept_by_trim fs r fa root Ht H).
Qed.

Lemma trim_all_projects : forall triples fs fs' root dirs files,
  ProcessProbes.trim_all w fs triples = Ok fs' ->
  In (root, dirs, files) triples -> In "Probes.tsv" files ->
  projected w fs' root.
Proof.
  induction triples as [|[[r ds] fl] triples IH];
    intros fs fs' root dirs files; cbn [ProcessProbes.trim_all In];
    [intros _ []|].
  destruct (str_in "Probes.tsv" fl) eqn:Hp.
  - destruct (ProcessProbes.trim w fs r) as [fa|] eqn:Ht; cbn [bind];
      [|discriminate].
    intros Hrest [[= -> -> ->]|Hin] Hpr.
    + apply (projected_kept_by_trim_all triples fa fs' root Hrest).
      apply (projected_after_trim fs root fa Ht).
    + apply (IH fa fs' root dirs files Hrest Hin Hpr).
  - intros Hrest [[= -> -> ->]|Hin] Hpr.
    + apply str_in_In in Hpr. congruence.
    + apply (IH fs fs' root dirs files Hrest Hin Hpr).
Qed.

End Projection.

(** X8: the Project action writes files ProbesTrimmed.tsv and nothing
    else: when it returns, every regular file of another name, each
    Probes.tsv among them, is as it was. *)
Theorem projection_keeps_other_files :
  forall (w : world) (p : Params) (fs fs' : node) (q : path) (data : string),
    ProcessProbes.run w p fs = Ok fs' ->
    lookup fs q = Some (File data) ->
    (forall root, q <> os_path_join root "ProbesTrimmed.tsv") ->
    lookup fs' q = Some (File data).
Proof.
  intros w p fs fs' q data Hrun Hl Hq.
  apply (trim_all_keeps w _ fs fs' q data Hrun Hl Hq).
Qed.

(** X9: when the Project action returns, every directory in which the
    walk of the extraction root found a Probes.tsv holds, in the tree it
    left, that Probes.tsv and beside it a ProbesTrimmed.tsv which is the
    table read from it without the seven columns to remove. *)
Theorem projection_postcondition :
  forall (w : world) (p : Params) (fs fs' : node)
         (root : path) (dirs files : list string),
    ProcessProbes.run w p fs = Ok fs' ->
    In (root, dirs, files) (os_walk fs (ProcessProbes.base_path p)) ->
    In "Probes.tsv" files ->
    projected w fs' root.
Proof.
  intros w p fs fs' root dirs files Hrun Hin Hp.
  apply (trim_all_projects w _ fs fs' root dirs files Hrun Hin Hp).
Qed.

(** The Probes.tsv of the member directory is not touched. *)
Lemma projection_keeps_other_files_witness :
  ProcessProbes.run (one_member probes_text) default_params before_trim
  = Ok after_probes
  /\ lookup after_probes (os_path_join member_dir "Probes.tsv")
     = lookup before_trim (os_path_join member_dir "Probes.tsv").
Proof.
  assert (H : ProcessProbes.run (one_member probes_text) default_params
                before_trim = Ok after_probes) by reflexivity.
  split; [exact H|].
  apply (projection_keeps_other_files (one_member probes_text) default_params
           before_trim after_probes (os_path_join member_dir "Probes.tsv")
           _ H eq_refl).
  intros root E. apply join_inj in E. destruct E as [_ E]. discriminate E.
Defined.

(** The member directory after the projection. *)
Lemma projection_postcondition_witness :
  projected (one_member probes_text) after_probes member_dir.
Proof.
  apply (projection_postcondition (one_member probes_text) default_params
           before_trim after_probes member_dir [] ["Probes.tsv"] eq_refl).
  - simpl. tauto.
  - left. reflexivity.
Defined.

Lemma has_probes_kept : forall p fs fs',
  kept fs fs' -> has_probes p fs' = has_probes p fs.
Proof.
  intros p fs fs' (Hw & _ & _). unfold has_probes.
  specialize (Hw (ProcessProbes.base_path p)).
  induction Hw as [|t t' l l' (_ & _ & Hf) _ IH]; cbn [existsb]; [reflexivity|].
  rewrite IH. f_equal. apply eq_true_iff_eq. rewrite !str_in_In.
  symmetry. apply Hf. discriminate.
Qed.

(** X10: the Project action establishes its own predicate whenever there
    is something to project: on the tree it leaves, the predicate is true
    exactly when the walk of the extraction root found a Probes.tsv, and
    the action neither adds nor removes one.  (pandas never writes an
    empty file.) *)
Theorem projection_then_complete :
  forall (w : world) (p : Params) (fs fs' : node),
    (forall df, to_csv (pd w) df <> EmptyString) ->
    ProcessProbes.run w p fs = Ok fs' ->
    ProcessProbes.complete p fs' = Ok (has_probes p fs)
    /\ has_probes p fs' = has_probes p fs.
Proof.
  intros w p fs fs' Hcsv Hrun.
  destruct (trim_all_post w Hcsv _ fs fs' Hrun) as [Hk Hall].
  rewrite <- (has_probes_kept p fs fs' Hk). split; [|reflexivity].
  apply (probes_complete_after p fs fs' Hk Hall).
Qed.

(** The projection of one Probes.tsv makes the predicate true. *)
Lemma projection_then_complete_witness :
  ProcessProbes.run (one_member probes_text) default_params before_trim
  = Ok after_probes
  /\ ProcessProbes.complete default_params after_probes = Ok true.
Proof.
  assert (H : ProcessProbes.run (one_member probes_text) default_params
                before_trim = Ok after_probes) by reflexivity.
  split; [exact H|].
  exact (proj1 (projection_then_complete (one_member probes_text)
                  default_params before_trim after_probes
                  ref_to_csv_not_empty H)).
Defined.

(** X11: the Project predicate is true exactly when the list of targets
    that [output] computes is not empty and every target exists with a
    size above zero. *)
Theorem probes_complete_by_targets : forall (p : Params) (fs : node),
  ProcessProbes.complete p fs = Ok true
  <-> ProcessProbes.output p fs <> []
      /\ forall q,
          In q (ProcessProbes.output p fs) ->
          exists n, lookup fs q = Some n /\ (0 < st_size n)%N.
Proof.
  intros p fs.
  assert (Hout : forall q,
    In q (ProcessProbes.output p fs) <->
    exists root dirs files,
      In (root, dirs, files) (os_walk fs (ProcessProbes.base_path p))
      /\ In "Probes.tsv" files
      /\ q = os_path_join root "ProbesTrimmed.tsv").
  { intros q. unfold ProcessProbes.output. rewrite in_flat_map. split.
    - intros ([[root dirs] files] & Ht & Hq).
      destruct (str_in "Probes.tsv" files) eqn:Hp; [|contradiction].
      destruct Hq as [<-|[]]. exists root, dirs, files.
      split; [exact Ht | split; [apply str_in_In, Hp | reflexivity]].
    - intros (root & dirs & files & Ht & Hp & ->).
      exists (root, dirs, files). split; [exact Ht|].
      apply str_in_In in Hp. rewrite Hp. left. reflexivity. }
  unfold ProcessProbes.complete.
  destruct (complete_loop_spec fs (os_walk fs (ProcessProbes.base_path p)) false)
    as (f & a & Hrun & Hiff).
  rewrite Hrun. cbn [bind fst snd]. split.
  - intros [= H]. apply Hiff in H. destruct H as [[H|H] Hall]; [discriminate H|].
    destruct H as (root & dirs & files & Ht & Hp). split.
    + intros E.
      assert (Hq : In (os_path_join root "ProbesTrimmed.tsv")
                     (ProcessProbes.output p fs)).
      { apply Hout. exists root, dirs, files. repeat split; assumption. }
      rewrite E in Hq. contradiction.
    + intros q Hq. apply Hout in Hq.
      destruct Hq as (r & ds & fl & Ht' & Hp' & ->).
      apply trimmed_ok_lookup, (Hall r ds fl Ht' Hp').
  - intros [Hne Hall]. f_equal. apply Hiff. split.
    + right. destruct (ProcessProbes.output p fs) as [|q l] eqn:E;
        [contradiction|].
      assert (Hq : In q (q :: l)) by (left; reflexivity).
      apply Hout in Hq. destruct Hq as (r & ds & fl & Ht & Hp & _).
      exists r, ds, fl. split; assumption.
    + intros r ds fl Ht Hp. apply trimmed_ok_lookup, Hall, Hout.
      exists r, ds, fl. repeat split; assumption.
Qed.

(** ** ExtractAndProcessGeoDataset.run *)

Lemma makedirs_file_before : forall p n n' q data,
  os_makedirs n p = Ok n' ->
  lookup n' q = Some (File data) -> lookup n q = Some (File data).
Proof.
  induction p as [|k p IH]; intros n n' q data; cbn [os_makedirs].
  - destruct n; [discriminate | intros [= <-]; exact (fun H => H)].
  - destruct n as [|sz es]; [discriminate|].
    destruct (assoc k es) as [c|] eqn:Hc.
    + destruct (os_makedirs c p) as [c'|] eqn:Hm; cbn [bind]; [|discriminate].
      intros [= <-]. destruct q as [|b q]; [discriminate|]. cbn [lookup].
      destruct (String.eqb b k) eqn:E.
      * apply String.eqb_eq in E. subst b. rewrite assoc_put_same, Hc.
        apply (IH c c' q data Hm).
      * rewrite (assoc_put_other k b c' es E). exact (fun H => H).
    + destruct (os_makedirs (Dir mkdir_st_size []) p) as [c'|] eqn:Hm;
        cbn [bind]; [|discriminate].
      intros [= <-]. destruct q as [|b q]; [discriminate|]. cbn [lookup].
      destruct (String.eqb b k) eqn:E.
      * apply String.eqb_eq in E. subst b. rewrite assoc_put_same.
        intros Hl. apply (IH _ c' q data Hm) in Hl.
        destruct q; discriminate Hl.
      * rewrite (assoc_put_other k b c' es E). exact (fun H => H).
Qed.

Section ExtractFrame.

Variable w : world.
Variable p : Params.
Variable q : path.
Variable data : string.

(** [q] is not in the extraction directory. *)
Hypothesis outside :
  forall r, q <> (ExtractAndProcessGeoDataset.output p ++ r)%list.

Lemma extract_member_keeps : forall fs member fs',
  ExtractAndProcessGeoDataset.extract_member w p fs member = Ok fs' ->
  lookup fs q = Some (File data) -> lookup fs' q = Some (File data).
Proof.
  intros fs member fs'. unfold ExtractAndProcessGeoDataset.extract_member.
  set (file_name := os_path_basename (member_name member)).
  set (top := ExtractAndProcessGeoDataset.output p).
  destruct (os_makedirs fs (os_path_join top file_name)) as [fs1|] eqn:Hm;
    cbn [bind]; [|discriminate].
  destruct (write_file fs1 (os_path_join (os_path_join top file_name) file_name)
              (member_data member)) as [fs2|] eqn:Hw; cbn [bind];
    [|discriminate].
  assert (Hq2 : q <> os_path_join (os_path_join top file_name) file_name).
  { unfold os_path_join. rewrite <- app_assoc. apply outside. }
  assert (H2 : lookup fs q = Some (File data) -> lookup fs2 q = Some (File data)).
  { intros Hl. apply (lookup_write_other _ _ _ _ _ _ Hw); [|exact Hq2].
    apply (makedirs_keeps_file _ _ _ _ _ Hm Hl). }
  destruct (endswith ".gz" _).
  - unfold ExtractAndProcessGeoDataset._decompress_and_split_gz.
    destruct (read_file fs2 _) as [raw|]; cbn [bind]; [|discriminate].
    destruct (gzip_read_decode w raw) as [text|]; cbn [bind]; [|discriminate].
    destruct (os_remove fs2 _) as [fs3|] eqn:Hr; cbn [bind]; [|discriminate].
    unfold ExtractAndProcessGeoDataset._process_content.
    intros Hp Hl.
    apply (process_content_keeps (pd w) (os_path_join top file_name) q data)
      with (fs := fs3) (content := text); [|exact Hp|].
    + intros key. unfold os_path_join. rewrite <- app_assoc. apply outside.
    + apply (remove_keeps_file _ _ _ _ _ Hr (H2 Hl) Hq2).
  - intros [= <-]. exact H2.
Qed.

Lemma extract_members_keeps : forall members fs fs',
  ExtractAndProcessGeoDataset.extract_members w p fs members = Ok fs' ->
  lookup fs q = Some (File data) -> lookup fs' q = Some (File data).
Proof.
  induction members as [|m members IH]; intros fs fs';
    cbn [ExtractAndProcessGeoDataset.extract_members].
  - intros [= <-] H. exact H.
  - destruct (ExtractAndProcessGeoDataset.extract_member w p fs m)
      as [fs1|] eqn:Hm; cbn [bind]; [|discriminate].
    intros Hrest Hl. apply (IH fs1 fs' Hrest), (extract_member_keeps _ _ _ Hm Hl).
Qed.

Lemma extract_run_keeps : forall fs fs',
  ExtractAndProcessGeoDataset.run w p fs = Ok fs' ->
  lookup fs q = Some (File data) -> lookup fs' q = Some (File data).
Proof.
  intros fs fs'. unfold ExtractAndProcessGeoDataset.run.
  destruct (os_makedirs fs _) as [fs1|] eqn:Hm; cbn [bind]; [|discriminate].
  destruct (read_file fs1 _) as [tar|]; cbn [bind]; [|discriminate].
  destruct (tarfile_getmembers w tar) as [members|]; cbn [bind];
    [|discriminate].
  intros Hx Hl. apply (extract_members_keeps _ _ _ Hx).
  apply (makedirs_keeps_file _ _ _ _ _ Hm Hl).
Qed.

End ExtractFrame.

Lemma container_outside_extraction : forall p r,
  DownloadGeoDataset.output p
  <> (ExtractAndProcessGeoDataset.output p ++ r)%list.
Proof.
  intros p r. unfold DownloadGeoDataset.output,
    ExtractAndProcessGeoDataset.output, os_path_join.
  rewrite <- !app_assoc. intros E. apply app_inv_head in E.
  cbn [app] in E. discriminate E.
Qed.


Lemma extract_run_container : forall w p fs fs',
  ExtractAndProcessGeoDataset.run w p fs = Ok fs' ->
  exists tar,
    lookup fs (DownloadGeoDataset.output p) = Some (File tar)
    /\ lookup fs' (DownloadGeoDataset.output p) = Some (File tar).
Proof.
  intros w p fs fs' Hrun.
  assert (Htar : exists tar,
             lookup fs (DownloadGeoDataset.output p) = Some (File tar)).
  { revert Hrun. unfold ExtractAndProcessGeoDataset.run.
    destruct (os_makedirs fs _) as [fs1|] eqn:Hm; cbn [bind]; [|discriminate].
    unfold ExtractAndProcessGeoDataset.requires.
    destruct (read_file fs1 (DownloadGeoDataset.output p)) as [tar|] eqn:Hr;
      cbn [bind]; [|discriminate].
    intros _. exists tar. apply read_file_lookup in Hr.
    apply (makedirs_file_before _ _ _ _ _ Hm Hr). }
  destruct Htar as (tar & Hl). exists tar. split; [exact Hl|].
  apply (extract_run_keeps w p _ tar (container_outside_extraction p)
           fs fs' Hrun Hl).
Qed.

Lemma download_complete_lookup : forall p fs fs',
  lookup fs' (DownloadGeoDataset.output p)
  = lookup fs (DownloadGeoDataset.output p) ->
  DownloadGeoDataset.complete p fs' = DownloadGeoDataset.complete p fs.
Proof.
  intros p fs fs' H.
  unfold DownloadGeoDataset.complete, os_path_isfile, os_path_getsize.
  rewrite H. reflexivity.
Qed.

(** X13: the Extract action returns only if the fetched container is
    there, and leaves it as it was; the Fetch predicate is the same on
    the tree it leaves. *)
Theorem extract_keeps_container :
  forall (w : world) (p : Params) (fs fs' : node),
    ExtractAndProcessGeoDataset.run w p fs = Ok fs' ->
    (exists tar,
        read_file fs (DownloadGeoDataset.output p) = Ok tar
        /\ read_file fs' (DownloadGeoDataset.output p) = Ok tar)
    /\ DownloadGeoDataset.complete p fs' = DownloadGeoDataset.complete p fs.
Proof.
  intros w p fs fs' Hrun.
  destruct (extract_run_container w p fs fs' Hrun) as (tar & Hl & Hl').
  split.
  - exists tar. split; apply read_file_lookup; assumption.
  - apply download_complete_lookup. congruence.
Qed.

Lemma extract_one_member :
  ExtractAndProcessGeoDataset.run (one_member data_only_text) default_params
    fetched_root = Ok extracted_root.
Proof. vm_compute. reflexivity. Qed.


(** The container is still there after the extraction. *)
Lemma extract_keeps_container_witness :
  DownloadGeoDataset.complete default_params extracted_root
  = DownloadGeoDataset.complete default_params fetched_root.
Proof.
  exact (proj2 (extract_keeps_container (one_member data_only_text)
                  default_params fetched_root extracted_root
                  extract_one_member)).
Defined.

(** *** Directories are never removed *)

Lemma dirs_kept_refl : forall fs, dirs_kept fs fs.
Proof. intros fs y H. exact H. Qed.

Lemma dirs_kept_trans : forall a b c,
  dirs_kept a b -> dirs_kept b c -> dirs_kept a c.
Proof. intros a b c H1 H2 y H. apply H2, H1, H. Qed.

Lemma isdir_lookup : forall fs y,
  os_path_isdir fs y = true <-> exists sz es, lookup fs y = Some (Dir sz es).
Proof.
  intros fs y. unfold os_path_isdir.
  destruct (lookup fs y) as [[d|sz es]|]; split; try discriminate.
  - intros (? & ? & H). discriminate H.
  - intros _. exists sz, es. reflexivity.
  - reflexivity.
  - intros (? & ? & H). discriminate H.
Qed.

Lemma write_keeps_dirs : forall r x fs fs' data,
  write_file fs (os_path_join r x) data = Ok fs' -> dirs_kept fs fs'.
Proof.
  intros r x fs fs' data Hw y Hy. apply isdir_lookup in Hy.
  destruct Hy as (sz & es & Hl).
  destruct (lookup_dir_write r x fs fs' data y sz es Hw Hl) as (es' & Hl' & _).
  apply isdir_lookup. exists sz, es'. exact Hl'.
Qed.

Lemma makedirs_keeps_dirs : forall p n n',
  os_makedirs n p = Ok n' -> dirs_kept n n'.
Proof.
  unfold dirs_kept, os_path_isdir.
  induction p as [|k p IH]; intros n n'; cbn [os_makedirs].
  - destruct n; [discriminate | intros [= <-] y H; exact H].
  - destruct n as [|sz es]; [discriminate|].
    destruct (assoc k es) as [c|] eqn:Hc.
    + destruct (os_makedirs c p) as [c'|] eqn:Hm; cbn [bind]; [|discriminate].
      intros [= <-] [|b y]; [reflexivity|]. cbn [lookup].
      destruct (String.eqb b k) eqn:E.
      * apply String.eqb_eq in E. subst b. rewrite assoc_put_same, Hc.
        apply (IH c c' Hm).
      * rewrite (assoc_put_other k b c' es E). exact (fun H => H).
    + destruct (os_makedirs (Dir mkdir_st_size []) p) as [c'|] eqn:Hm;
        cbn [bind]; [|discriminate].
      intros [= <-] [|b y]; [reflexivity|]. cbn [lookup].
      destruct (String.eqb b k) eqn:E.
      * apply String.eqb_eq in E. subst b. rewrite Hc. discriminate.
      * rewrite (assoc_put_other k b c' es E). exact (fun H => H).
Qed.

Lemma remove_keeps_dirs : forall q0 n n',
  os_remove n q0 = Ok n' -> dirs_kept n n'.
Proof.
  unfold dirs_kept, os_path_isdir.
  induction q0 as [|k q0 IH]; intros n n'; cbn [os_remove]; [discriminate|].
  destruct n as [|sz es]; [discriminate|].
  destruct (assoc k es) as [c|] eqn:Hc; [|discriminate].
  destruct q0 as [|k0 q0].
  - destruct c as [d|sz' es']; [|discriminate].
    intros [= <-] [|b y]; [reflexivity|]. cbn [lookup].
    destruct (String.eqb b k) eqn:E.
    + apply String.eqb_eq in E. subst b. rewrite Hc.
      destruct y; discriminate.
    + rewrite (assoc_del_other k b es E). exact (fun H => H).
  - destruct (os_remove c (k0 :: q0)) as [c'|] eqn:Hr; cbn [bind];
      [|discriminate].
    intros [= <-] [|b y]; [reflexivity|]. cbn [lookup].
    destruct (String.eqb b k) eqn:E.
    + apply String.eqb_eq in E. subst b. rewrite assoc_put_same, Hc.
      apply (IH c c' Hr).
    + rewrite (assoc_put_other k b c' es E). exact (fun H => H).
Qed.

Section ParserDirs.

Variable pd : pandas.
Variable output_dir : path.

Lemma materialize_keeps_dirs : forall header key st st',
  Parser.materialize pd output_dir header key st = Ok st' ->
  dirs_kept (Parser.fs st) (Parser.fs st').
Proof.
  intros header key st st'. unfold Parser.materialize.
  destruct (read_csv pd header (Parser.string_io st)) as [df|];
    cbn [bind]; [|discriminate].
  destruct (write_file _ _ _) as [fs'|] eqn:Hw; cbn [bind]; [|discriminate].
  intros [= <-]. cbn [Parser.fs]. apply (write_keeps_dirs _ _ _ _ _ Hw).
Qed.

Lemma step_keeps_dirs : forall st line st',
  Parser.step pd output_dir st line = Ok st' ->
  dirs_kept (Parser.fs st) (Parser.fs st').
Proof.
  intros st line st'. unfold Parser.step.
  destruct (startswith "[" line).
  - destruct (Parser.key_open (Parser.current_key st)) as [key|].
    + destruct (Parser.materialize pd output_dir _ key st) as [st1|] eqn:Hm;
        cbn [bind]; [|discriminate].
      intros [= <-]. apply (materialize_keeps_dirs _ _ _ _ Hm).
    + cbn [bind]. intros [= <-]. apply dirs_kept_refl.
  - destruct (Parser.key_open (Parser.current_key st));
      intros [= <-]; apply dirs_kept_refl.
Qed.

Lemma scan_keeps_dirs : forall lines st st',
  Parser.scan pd output_dir st lines = Ok st' ->
  dirs_kept (Parser.fs st) (Parser.fs st').
Proof.
  induction lines as [|l lines IH]; intros st st'; cbn [Parser.scan].
  - intros [= <-]. apply dirs_kept_refl.
  - destruct (Parser.step pd output_dir st l) as [st1|] eqn:Hs; cbn [bind];
      [|discriminate].
    intros Hrest.
    apply (dirs_kept_trans _ _ _ (step_keeps_dirs _ _ _ Hs) (IH _ _ Hrest)).
Qed.

Lemma process_content_keeps_dirs : forall fs content fs',
  Parser._process_content pd output_dir fs content = Ok fs' ->
  dirs_kept fs fs'.
Proof.
  intros fs content fs'. unfold Parser._process_content.
  destruct (Parser.scan pd output_dir (Parser.init fs) (splitlines content))
    as [st|] eqn:Hscan; cbn [bind]; [|discriminate].
  apply scan_keeps_dirs in Hscan. cbn [Parser.init Parser.fs] in Hscan.
  unfold Parser.finish.
  destruct (Parser.key_open (Parser.current_key st)) as [key|].
  - destruct (Parser.materialize pd output_dir HeaderInfer key st)
      as [st'|] eqn:Hm; cbn [bind]; [|discriminate].
    intros [= <-].
    apply (dirs_kept_trans _ _ _ Hscan (materialize_keeps_dirs _ _ _ _ Hm)).
  - cbn [bind]. intros [= <-]. exact Hscan.
Qed.

End ParserDirs.

Section ExtractDirs.

Variable w : world.
Variable p : Params.

Lemma extract_member_dirs : forall fs member fs',
  ExtractAndProcessGeoDataset.extract_member w p fs member = Ok fs' ->
  dirs_kept fs fs'
  /\ os_path_isdir fs'
       (os_path_join (ExtractAndProcessGeoDataset.output p)
          (os_path_basename (member_name member))) = true.
Proof.
  intros fs member fs'. unfold ExtractAndProcessGeoDataset.extract_member.
  set (file_name := os_path_basename (member_name member)).
  set (top := ExtractAndProcessGeoDataset.output p).
  destruct (os_makedirs fs (os_path_join top file_name)) as [fs1|] eqn:Hm;
    cbn [bind]; [|discriminate].
  destruct (write_file fs1 (os_path_join (os_path_join top file_name) file_name)
              (member_data member)) as [fs2|] eqn:Hw; cbn [bind];
    [|discriminate].
  assert (H2 : dirs_kept fs fs2
               /\ os_path_isdir fs2 (os_path_join top file_name) = true).
  { pose proof (makedirs_keeps_dirs _ _ _ Hm) as H01.
    pose proof (write_keeps_dirs _ _ _ _ _ Hw) as H12.
    split; [apply (dirs_kept_trans _ _ _ H01 H12)|].
    apply H12, isdir_lookup, (makedirs_isdir _ _ _ Hm). }
  destruct H2 as [Hk Hd].
  destruct (endswith ".gz" _).
  - unfold ExtractAndProcessGeoDataset._decompress_and_split_gz.
    destruct (read_file fs2 _) as [raw|]; cbn [bind]; [|discriminate].
    destruct (gzip_read_decode w raw) as [text|]; cbn [bind]; [|discriminate].
    destruct (os_remove fs2 _) as [fs3|] eqn:Hr; cbn [bind]; [|discriminate].
    unfold ExtractAndProcessGeoDataset._process_content. intros Hp.
    pose proof (remove_keeps_dirs _ _ _ Hr) as H23.
    pose proof (process_content_keeps_dirs _ _ _ _ _ Hp) as H3.
    split.
    + apply (dirs_kept_trans _ _ _ Hk), (dirs_kept_trans _ _ _ H23 H3).
    + apply H3, H23, Hd.
  - intros [= <-]. split; assumption.
Qed.

Lemma extract_members_dirs : forall members fs fs',
  ExtractAndProcessGeoDataset.extract_members w p fs members = Ok fs' ->
  dirs_kept fs fs'
  /\ forall m, In m members ->
       os_path_isdir fs'
         (os_path_join (ExtractAndProcessGeoDataset.output p)
            (os_path_basename (member_name m))) = true.
Proof.
  induction members as [|m members IH]; intros fs fs';
    cbn [ExtractAndProcessGeoDataset.extract_members].
  - intros [= <-]. split; [apply dirs_kept_refl | intros m []].
  - destruct (ExtractAndProcessGeoDataset.extract_member w p fs m)
      as [fs1|] eqn:Hm; cbn [bind]; [|discriminate].
    intros Hrest. destruct (extract_member_dirs _ _ _ Hm) as [Hk1 Hd1].
    destruct (IH fs1 fs' Hrest) as [Hk Hall].
    split; [apply (dirs_kept_trans _ _ _ Hk1 Hk)|].
    intros m' [<-|Hin]; [apply Hk, Hd1 | apply Hall, Hin].
Qed.

End ExtractDirs.

(** X14: when the Extract action returns, the extraction directory is a
    directory, it holds one directory per member of the container, named
    after the base name of the member, and no directory of the tree has
    been removed. *)
Theorem extract_makes_member_directories :
  forall (w : world) (p : Params) (fs fs' : node),
    ExtractAndProcessGeoDataset.run w p fs = Ok fs' ->
    exists tar members,
      read_file fs (DownloadGeoDataset.output p) = Ok tar
      /\ tarfile_getmembers w tar = Ok members
      /\ os_path_isdir fs' (ExtractAndProcessGeoDataset.output p) = true
      /\ (forall m, In m members ->
            os_path_isdir fs'
              (os_path_join (ExtractAndProcessGeoDataset.output p)
                 (os_path_basename (member_name m))) = true)
      /\ dirs_kept fs fs'.
Proof.
  intros w p fs fs'. unfold ExtractAndProcessGeoDataset.run.
  destruct (os_makedirs fs _) as [fs1|] eqn:Hm; cbn [bind]; [|discriminate].
  unfold ExtractAndProcessGeoDataset.requires.
  destruct (read_file fs1 (DownloadGeoDataset.output p)) as [tar|] eqn:Hr;
    cbn [bind]; [|discriminate].
  destruct (tarfile_getmembers w tar) as [members|] eqn:Ht; cbn [bind];
    [|discriminate].
  intros Hx. destruct (extract_members_dirs w p _ _ _ Hx) as [Hk Hall].
  exists tar, members. split; [|split; [exact Ht | split; [|split]]].
  - apply read_file_lookup. apply read_file_lookup in Hr.
    apply (makedirs_file_before _ _ _ _ _ Hm Hr).
  - apply Hk, isdir_lookup, (makedirs_isdir _ _ _ Hm).
  - exact Hall.
  - apply (dirs_kept_trans _ _ _ (makedirs_keeps_dirs _ _ _ Hm) Hk).
Qed.

(** The member GSM1.txt.gz gets the directory GSM1.txt.gz. *)
Lemma extract_makes_member_directories_witness :
  os_path_isdir extracted_root ["data"; "GSE68849"; "GSE68nnn"; "GSM1.txt.gz"]
  = true.
Proof.
  destruct (extract_makes_member_directories (one_member data_only_text)
              default_params fetched_root extracted_root extract_one_member)
    as (tar & members & Hr & Ht & _ & Hall & _).
  injection Hr as <-. injection Ht as <-.
  apply (Hall {| member_name := "GSM1.txt.gz"; member_data := "GZ" |}).
  left. reflexivity.
Defined.

Lemma makedirs_fresh : forall p n n',
  os_makedirs n p = Ok n' ->
  lookup n p = None \/ n = Dir mkdir_st_size [] ->
  lookup n' p = Some (Dir mkdir_st_size []).
Proof.
  induction p as [|k p IH]; intros n n'; cbn [os_makedirs lookup].
  - destruct n as [|sz es]; [discriminate|].
    intros [= <-] [H|H]; [discriminate H | rewrite H; reflexivity].
  - destruct n as [|sz es]; [discriminate|].
    destruct (assoc k es) as [c|] eqn:Hc.
    + destruct (os_makedirs c p) as [c'|] eqn:Hm; cbn [bind]; [|discriminate].
      intros [= <-] [H|H].
      * cbn [lookup]. rewrite assoc_put_same. apply (IH c c' Hm). left. exact H.
      * injection H as _ ->. discriminate Hc.
    + destruct (os_makedirs (Dir mkdir_st_size []) p) as [c'|] eqn:Hm;
        cbn [bind]; [|discriminate].
      intros [= <-] _. cbn [lookup]. rewrite assoc_put_same.
      apply (IH _ c' Hm). right. reflexivity.
Qed.

(** X15: a container without members is extracted to an empty
    directory: when the extraction directory did not exist, the Extract
    action makes it, leaves it empty, and its predicate holds on the
    resulting tree. *)
Theorem empty_container_is_complete :
  forall (w : world) (p : Params) (fs fs' : node) (tar : string),
    lookup fs (ExtractAndProcessGeoDataset.output p) = None ->
    read_file fs (DownloadGeoDataset.output p) = Ok tar ->
    tarfile_getmembers w tar = Ok [] ->
    ExtractAndProcessGeoDataset.run w p fs = Ok fs' ->
    lookup fs' (ExtractAndProcessGeoDataset.output p)
    = Some (Dir mkdir_st_size [])
    /\ ExtractAndProcessGeoDataset.complete p fs' = Ok true.
Proof.
  intros w p fs fs' tar Hnone Hread Hmembers.
  unfold ExtractAndProcessGeoDataset.run.
  destruct (os_makedirs fs _) as [fs1|] eqn:Hm; cbn [bind]; [|discriminate].
  unfold ExtractAndProcessGeoDataset.requires.
  apply read_file_lookup in Hread.
  apply (makedirs_keeps_file _ _ _ _ _ Hm), read_file_lookup in Hread.
  rewrite Hread. cbn [bind]. rewrite Hmembers. cbn [bind].
  cbn [ExtractAndProcessGeoDataset.extract_members]. intros [= <-].
  pose proof (makedirs_fresh _ _ _ Hm (or_introl Hnone)) as Hl.
  split; [exact Hl|].
  unfold ExtractAndProcessGeoDataset.complete, os_path_isdir, os_walk.
  rewrite Hl. reflexivity.
Qed.

(** The container without members, on the tree after the fetch. *)
Lemma empty_container_is_complete_witness :
  exists fs',
    ExtractAndProcessGeoDataset.run no_members default_params fetched_root
    = Ok fs'
    /\ ExtractAndProcessGeoDataset.complete default_params fs' = Ok true.
Proof.
  eexists. split; [reflexivity|].
  apply (empty_container_is_complete no_members default_params fetched_root _
           "TAR" eq_refl eq_refl eq_refl eq_refl).
Defined.

(** ** The pipeline *)

(** X16: a run of the pipeline that returns has called the actions that
    were due, in the order of [requires], and no other: nothing when the
    Project predicate held; Project alone when the Extract predicate
    held; Extract then Project when the Fetch predicate held; the three
    of them otherwise. *)
Theorem pipeline_runs_what_is_due :
  forall (w : world) (p : Params) (fs fs' : node) (ran : list Luigi.task),
    Luigi.pipeline w p fs = Ok (fs', ran) ->
    (ProcessProbes.complete p fs = Ok true /\ ran = [] /\ fs' = fs)
    \/ (ProcessProbes.complete p fs = Ok false
        /\ ExtractAndProcessGeoDataset.complete p fs = Ok true
        /\ ran = [Luigi.Probes])
    \/ (ProcessProbes.complete p fs = Ok false
        /\ ExtractAndProcessGeoDataset.complete p fs = Ok false
        /\ DownloadGeoDataset.complete p fs = Ok true
        /\ ran = [Luigi.Extract; Luigi.Probes])
    \/ (ProcessProbes.complete p fs = Ok false
        /\ ExtractAndProcessGeoDataset.complete p fs = Ok false
        /\ DownloadGeoDataset.complete p fs = Ok false
        /\ ran = [Luigi.Download; Luigi.Extract; Luigi.Probes]).
Proof.
  intros w p fs fs' ran Hrun. unfold Luigi.pipeline, Luigi.build in Hrun.
  simpl in Hrun.
  destruct (ProcessProbes.complete p fs) as [[|]|]; simpl in Hrun;
    [| |discriminate Hrun].
  { inversion Hrun. left. repeat split. }
  right.
  destruct (ExtractAndProcessGeoDataset.complete p fs) as [[|]|] eqn:Hx;
    simpl in Hrun; [| |discriminate Hrun].
  { rewrite Hx in Hrun. simpl in Hrun.
    destruct (ProcessProbes.run w p fs); simpl in Hrun; [|discriminate Hrun].
    inversion Hrun. left. repeat split. }
  right.
  destruct (DownloadGeoDataset.complete p fs) as [[|]|] eqn:Hd;
    simpl in Hrun; [| |discriminate Hrun].
  - rewrite Hd in Hrun. simpl in Hrun.
    destruct (ExtractAndProcessGeoDataset.run w p fs) as [fs1|];
      simpl in Hrun; [|discriminate Hrun].
    destruct (ExtractAndProcessGeoDataset.complete p fs1) as [[|]|];
      simpl in Hrun; try discriminate Hrun.
    destruct (ProcessProbes.run w p fs1); simpl in Hrun; [|discriminate Hrun].
    inversion Hrun. left. repeat split.
  - destruct (DownloadGeoDataset.run w p fs) as [fs0|];
      simpl in Hrun; [|discriminate Hrun].
    destruct (DownloadGeoDataset.complete p fs0) as [[|]|];
      simpl in Hrun; try discriminate Hrun.
    destruct (ExtractAndProcessGeoDataset.run w p fs0) as [fs1|];
      simpl in Hrun; [|discriminate Hrun].
    destruct (ExtractAndProcessGeoDataset.complete p fs1) as [[|]|];
      simpl in Hrun; try discriminate Hrun.
    destruct (ProcessProbes.run w p fs1); simpl in Hrun; [|discriminate Hrun].
    inversion Hrun. right. repeat split.
Qed.

(** A run on the tree after the fetch extracts and projects. *)
Lemma pipeline_runs_what_is_due_witness :
  Luigi.pipeline (one_member data_only_text) default_params fetched_root
  = Ok (extracted_root, [Luigi.Extract; Luigi.Probes])
  /\ DownloadGeoDataset.complete default_params fetched_root = Ok true.
Proof.
  assert (H : Luigi.pipeline (one_member data_only_text) default_params
                fetched_root
              = Ok (extracted_root, [Luigi.Extract; Luigi.Probes]))
    by (vm_compute; reflexivity).
  split; [exact H|].
  destruct (pipeline_runs_what_is_due _ _ _ _ _ H)
    as [(_ & E & _)|[(_ & _ & E)|[(_ & _ & Hd & _)|(_ & _ & _ & E)]]];
    try discriminate E.
  exact Hd.
Defined.

Lemma container_not_trimmed : forall p root,
  DownloadGeoDataset.output p <> os_path_join root "ProbesTrimmed.tsv".
Proof.
  intros p root E. unfold DownloadGeoDataset.output in E.
  apply join_inj in E. destruct E as [_ E].
  pose proof (endswith_app (dataset_name p ++ "_" ++ dataset_series p)
                "_RAW.tar") as H.
  rewrite !str_app_assoc in H. rewrite E in H. discriminate H.
Qed.

Lemma download_complete_file : forall p fs,
  DownloadGeoDataset.complete p fs = Ok true ->
  exists tar, lookup fs (DownloadGeoDataset.output p) = Some (File tar).
Proof.
  intros p fs. unfold DownloadGeoDataset.complete, os_path_isfile.
  destruct (lookup fs (DownloadGeoDataset.output p)) as [[tar|sz es]|];
    try discriminate.
  intros _. exists tar. reflexivity.
Qed.

(** X17: a run of the pipeline that returns after calling at least one
    action leaves the stages in order: on the tree it leaves, the Extract
    predicate is true, the Project predicate is true exactly when the
    extraction tree holds a Probes.tsv, and the Fetch predicate is true
    whenever the run called the Extract action.  (pandas never writes an
    empty file.) *)
Theorem pipeline_leaves_stages_complete :
  forall (w : world) (p : Params) (fs fs' : node) (ran : list Luigi.task),
    (forall df, to_csv (pd w) df <> EmptyString) ->
    Luigi.pipeline w p fs = Ok (fs', ran) ->
    ran <> [] ->
    ExtractAndProcessGeoDataset.complete p fs' = Ok true
    /\ ProcessProbes.complete p fs' = Ok (has_probes p fs')
    /\ (In Luigi.Extract ran -> DownloadGeoDataset.complete p fs' = Ok true).
Proof.
  intros w p fs fs' ran Hcsv Hrun Hne.
  assert (Hlast : forall fsm,
    ExtractAndProcessGeoDataset.complete p fsm = Ok true ->
    ProcessProbes.run w p fsm = Ok fs' ->
    ExtractAndProcessGeoDataset.complete p fs' = Ok true
    /\ ProcessProbes.complete p fs' = Ok (has_probes p fs')
    /\ (DownloadGeoDataset.complete p fsm = Ok true ->
        DownloadGeoDataset.complete p fs' = Ok true)).
  { intros fsm Hx Hp. destruct (trim_all_post w Hcsv _ fsm fs' Hp) as [Hk Hall].
    split; [apply (extract_complete_kept p fsm fs' Hk Hx)|].
    split; [apply (probes_complete_after p fsm fs' Hk Hall)|].
    intros Hd. destruct (download_complete_file p fsm Hd) as (tar & Hl).
    rewrite <- Hd. apply download_complete_lookup. rewrite Hl.
    apply (trim_all_keeps w _ fsm fs' _ tar Hp Hl).
    apply container_not_trimmed. }
  unfold Luigi.pipeline, Luigi.build in Hrun. simpl in Hrun.
  destruct (ProcessProbes.complete p fs) as [[|]|]; simpl in Hrun;
    [| |discriminate Hrun].
  { inversion Hrun. subst ran. contradiction. }
  destruct (ExtractAndProcessGeoDataset.complete p fs) as [[|]|] eqn:Hx;
    simpl in Hrun; [| |discriminate Hrun].
  { rewrite Hx in Hrun. simpl in Hrun.
    destruct (ProcessProbes.run w p fs) as [fs2|] eqn:Hp; simpl in Hrun;
      [|discriminate Hrun].
    inversion Hrun. subst fs2 ran.
    destruct (Hlast fs Hx Hp) as (H1 & H2 & _).
    split; [exact H1 | split; [exact H2|]].
    intros [E|[]]. discriminate E. }
  destruct (DownloadGeoDataset.complete p fs) as [[|]|] eqn:Hd;
    simpl in Hrun; [| |discriminate Hrun].
  - rewrite Hd in Hrun. simpl in Hrun.
    destruct (ExtractAndProcessGeoDataset.run w p fs) as [fs1|] eqn:Hx1;
      simpl in Hrun; [|discriminate Hrun].
    destruct (ExtractAndProcessGeoDataset.complete p fs1) as [[|]|] eqn:Hc1;
      simpl in Hrun; try discriminate Hrun.
    destruct (ProcessProbes.run w p fs1) as [fs2|] eqn:Hp; simpl in Hrun;
      [|discriminate Hrun].
    inversion Hrun. subst fs2 ran.
    destruct (Hlast fs1 Hc1 Hp) as (H1 & H2 & H3).
    split; [exact H1 | split; [exact H2|]]. intros _. apply H3.
    destruct (extract_run_container w p fs fs1 Hx1) as (tar & Hl & Hl').
    rewrite <- Hd. apply download_complete_lookup. congruence.
  - destruct (DownloadGeoDataset.run w p fs) as [fs0|];
      simpl in Hrun; [|discriminate Hrun].
    destruct (DownloadGeoDataset.complete p fs0) as [[|]|] eqn:Hd0;
      simpl in Hrun; try discriminate Hrun.
    destruct (ExtractAndProcessGeoDataset.run w p fs0) as [fs1|] eqn:Hx1;
      simpl in Hrun; [|discriminate Hrun].
    destruct (ExtractAndProcessGeoDataset.complete p fs1) as [[|]|] eqn:Hc1;
      simpl in Hrun; try discriminate Hrun.
    destruct (ProcessProbes.run w p fs1) as [fs2|] eqn:Hp; simpl in Hrun;
      [|discriminate Hrun].
    inversion Hrun. subst fs2 ran.
    destruct (Hlast fs1 Hc1 Hp) as (H1 & H2 & H3).
    split; [exact H1 | split; [exact H2|]]. intros _. apply H3.
    destruct (extract_run_container w p fs0 fs1 Hx1) as (tar & Hl & Hl').
    rewrite <- Hd0. apply download_complete_lookup. congruence.
Qed.

(** After the whole pipeline on an empty root, the three predicates. *)
Lemma pipeline_leaves_stages_complete_witness :
  ExtractAndProcessGeoDataset.complete default_params after_probes = Ok true
  /\ ProcessProbes.complete default_params after_probes = Ok true
  /\ DownloadGeoDataset.complete default_params after_probes = Ok true.
Proof.
  assert (H : Luigi.pipeline (one_member probes_text) default_params
                (Dir mkdir_st_size [])
              = Ok (after_probes, [Luigi.Download; Luigi.Extract; Luigi.Probes]))
    by (vm_compute; reflexivity).
  destruct (pipeline_leaves_stages_complete (one_member probes_text)
              default_params (Dir mkdir_st_size []) after_probes _
              ref_to_csv_not_empty H) as (H1 & H2 & H3); [discriminate|].
  split; [exact H1 | split; [exact H2|]].
  apply H3. right. left. reflexivity.
Defined.

(** ** The compressed payload is removed *)

Lemma in_put_names : forall k v es x,
  In x (map fst (put k v es)) -> x = k \/ In x (map fst es).
Proof.
  induction es as [|[k0 v0] es IH]; cbn [put map fst In]; intros x.
  - intros [<-|[]]. left. reflexivity.
  - destruct (String.eqb k k0) eqn:E; cbn [map fst In].
    + intros H. right. exact H.
    + intros [<-|H]; [right; left; reflexivity|].
      destruct (IH x H) as [->|H']; [left; reflexivity | right; right; exact H'].
Qed.

Lemma not_in_names : forall k names,
  existsb (String.eqb k) names = false <-> ~ In k names.
Proof.
  intros k names. rewrite <- (str_in_In k names). unfold str_in.
  destruct (existsb (String.eqb k) names); split; congruence.
Qed.

Lemma unique_put : forall k v es,
  unique_names (map fst es) = true ->
  unique_names (map fst (put k v es)) = true.
Proof.
  induction es as [|[k0 v0] es IH]; cbn [put map fst unique_names].
  - reflexivity.
  - intros H. apply andb_prop in H. destruct H as [Hk Hu].
    destruct (String.eqb k k0) eqn:E; cbn [map fst unique_names].
    + rewrite Hk, Hu. reflexivity.
    + rewrite (IH Hu), andb_true_r. apply negb_true_iff, not_in_names.
      apply negb_true_iff, not_in_names in Hk. intros Hin.
      destruct (in_put_names k v es k0 Hin) as [->|H']; [|contradiction].
      rewrite String.eqb_refl in E. discriminate E.
Qed.

Lemma wf_put : forall sz k v es,
  wf_node (Dir sz es) = true -> wf_node v = true ->
  wf_node (Dir sz (put k v es)) = true.
Proof.
  intros sz k v es H Hv. cbn [wf_node] in *.
  apply andb_prop in H. destruct H as [Hu Hall].
  rewrite (unique_put k v es Hu). cbn [andb].
  clear Hu. induction es as [|[k0 v0] es IH]; cbn [put forallb snd].
  - rewrite Hv. reflexivity.
  - cbn [forallb snd] in Hall. apply andb_prop in Hall.
    destruct Hall as [H0 Hall].
    destruct (String.eqb k k0); cbn [forallb snd].
    + rewrite Hv, Hall. reflexivity.
    + rewrite H0, (IH Hall). reflexivity.
Qed.

Lemma in_del_names : forall k es x,
  In x (map fst (del k es)) -> In x (map fst es).
Proof.
  induction es as [|[k0 v0] es IH]; cbn [del map fst In]; intros x;
    [exact (fun H => H)|].
  destruct (String.eqb k k0); cbn [map fst In].
  - intros H. right. exact H.
  - intros [<-|H]; [left; reflexivity | right; apply IH, H].
Qed.

Lemma wf_del : forall sz k es,
  wf_node (Dir sz es) = true -> wf_node (Dir sz (del k es)) = true.
Proof.
  intros sz k es. cbn [wf_node].
  induction es as [|[k0 v0] es IH]; cbn [del map fst unique_names forallb snd];
    [exact (fun H => H)|].
  intros H. apply andb_prop in H. destruct H as [Hu Hall].
  apply andb_prop in Hu. destruct Hu as [Hk Hu].
  apply andb_prop in Hall. destruct Hall as [H0 Hall].
  destruct (String.eqb k k0); cbn [map fst unique_names forallb snd].
  - rewrite Hu, Hall. reflexivity.
  - assert (IH' := IH (proj2 (andb_true_iff _ _) (conj Hu Hall))).
    apply andb_prop in IH'. destruct IH' as [Hu' Hall'].
    rewrite Hu', Hall', H0, !andb_true_r.
    apply negb_true_iff, not_in_names.
    apply negb_true_iff, not_in_names in Hk.
    intros Hin. apply Hk, (in_del_names k es k0 Hin).
Qed.

Lemma assoc_del_same : forall k es,
  unique_names (map fst es) = true -> assoc k (del k es) = None.
Proof.
  induction es as [|[k0 v0] es IH]; cbn [del map fst unique_names];
    [reflexivity|].
  intros H. apply andb_prop in H. destruct H as [Hk Hu].
  destruct (String.eqb k k0) eqn:E.
  - apply String.eqb_eq in E. subst k0.
    apply negb_true_iff, not_in_names in Hk.
    destruct (assoc k es) as [c|] eqn:Hc; [|reflexivity].
    exfalso. apply Hk. apply assoc_in in Hc.
    apply in_map_iff. exists (k, c). split; [reflexivity | exact Hc].
  - cbn [assoc]. rewrite E. apply IH, Hu.
Qed.

Lemma wf_child : forall sz es k c,
  wf_node (Dir sz es) = true -> assoc k es = Some c -> wf_node c = true.
Proof.
  intros sz es k c H Hc.
  apply (wf_node_entries sz es (k, c) H), assoc_in, Hc.
Qed.

Lemma wf_makedirs : forall p n n',
  wf_node n = true -> os_makedirs n p = Ok n' -> wf_node n' = true.
Proof.
  induction p as [|k p IH]; intros n n' Hwf; cbn [os_makedirs].
  - destruct n; [discriminate | intros [= <-]; exact Hwf].
  - destruct n as [|sz es]; [discriminate|].
    destruct (assoc k es) as [c|] eqn:Hc.
    + destruct (os_makedirs c p) as [c'|] eqn:Hm; cbn [bind]; [|discriminate].
      intros [= <-]. apply (wf_put sz k c' es Hwf).
      apply (IH c c' (wf_child sz es k c Hwf Hc) Hm).
    + destruct (os_makedirs (Dir mkdir_st_size []) p) as [c'|] eqn:Hm;
        cbn [bind]; [|discriminate].
      intros [= <-]. apply (wf_put sz k c' es Hwf).
      apply (IH (Dir mkdir_st_size []) c' eq_refl Hm).
Qed.

Lemma wf_write_file : forall q n n' data,
  wf_node n = true -> write_file n q data = Ok n' -> wf_node n' = true.
Proof.
  induction q as [|k q IH]; intros n n' data Hwf; cbn [write_file].
  - destruct n; [intros [= <-]; reflexivity | discriminate].
  - destruct n as [|sz es]; [discriminate|].
    destruct (assoc k es) as [c|] eqn:Hc.
    + destruct (write_file c q data) as [c'|] eqn:Hw; cbn [bind];
        [|discriminate].
      intros [= <-]. apply (wf_put sz k c' es Hwf).
      apply (IH c c' data (wf_child sz es k c Hwf Hc) Hw).
    + destruct q; [|discriminate].
      intros [= <-]. apply (wf_put sz k _ es Hwf). reflexivity.
Qed.

Lemma wf_remove : forall q n n',
  wf_node n = true -> os_remove n q = Ok n' -> wf_node n' = true.
Proof.
  induction q as [|k q IH]; intros n n' Hwf; cbn [os_remove]; [discriminate|].
  destruct n as [|sz es]; [discriminate|].
  destruct (assoc k es) as [c|] eqn:Hc; [|discriminate].
  destruct q as [|k0 q].
  - destruct c; [|discriminate]. intros [= <-]. apply (wf_del sz k es Hwf).
  - destruct (os_remove c (k0 :: q)) as [c'|] eqn:Hr; cbn [bind];
      [|discriminate].
    intros [= <-]. apply (wf_put sz k c' es Hwf).
    apply (IH c c' (wf_child sz es k c Hwf Hc) Hr).
Qed.

(** After [os.remove(q)] nothing is left at [q]. *)
Lemma remove_gone : forall q n n',
  wf_node n = true -> os_remove n q = Ok n' -> lookup n' q = None.
Proof.
  induction q as [|k q IH]; intros n n' Hwf; cbn [os_remove]; [discriminate|].
  destruct n as [|sz es]; [discriminate|].
  destruct (assoc k es) as [c|] eqn:Hc; [|discriminate].
  destruct q as [|k0 q].
  - destruct c; [|discriminate]. intros [= <-]. cbn [lookup].
    rewrite (assoc_del_same k es (wf_node_unique sz es Hwf)). reflexivity.
  - destruct (os_remove c (k0 :: q)) as [c'|] eqn:Hr; cbn [bind];
      [|discriminate].
    intros [= <-]. cbn [lookup]. rewrite assoc_put_same.
    apply (IH c c' (wf_child sz es k c Hwf Hc) Hr).
Qed.

(** What is missing stays missing, unless it is what is made. *)
Lemma write_keeps_none : forall q0 n n' data q,
  write_file n q0 data = Ok n' ->
  lookup n q = None -> q <> q0 -> lookup n' q = None.
Proof.
  induction q0 as [|k q0 IH]; intros n n' data q; cbn [write_file].
  - destruct n; [|discriminate]. intros [= <-] Hl Hne.
    destruct q; [contradiction | reflexivity].
  - destruct n as [|sz es]; [discriminate|].
    destruct q as [|b q]; [discriminate|]. cbn [lookup].
    destruct (assoc k es) as [c|] eqn:Hc.
    + destruct (write_file c q0 data) as [c'|] eqn:Hw; cbn [bind];
        [|discriminate].
      intros [= <-] Hl Hne. cbn [lookup].
      destruct (String.eqb b k) eqn:E.
      * apply String.eqb_eq in E. subst b. rewrite assoc_put_same.
        rewrite Hc in Hl. apply (IH c c' data q Hw Hl). congruence.
      * rewrite (assoc_put_other k b c' es E). exact Hl.
    + destruct q0; [|discriminate].
      intros [= <-] Hl Hne. cbn [lookup].
      destruct (String.eqb b k) eqn:E.
      * apply String.eqb_eq in E. subst b. rewrite assoc_put_same.
        destruct q; [contradiction | reflexivity].
      * rewrite (assoc_put_other k b (File data) es E). exact Hl.
Qed.

Lemma remove_keeps_none : forall q0 n n' q,
  wf_node n = true ->
  os_remove n q0 = Ok n' -> lookup n q = None -> lookup n' q = None.
Proof.
  induction q0 as [|k q0 IH]; intros n n' q Hwf; cbn [os_remove];
    [discriminate|].
  destruct n as [|sz es]; [discriminate|].
  destruct (assoc k es) as [c|] eqn:Hc; [|discriminate].
  destruct q as [|b q]; [discriminate|]. cbn [lookup].
  destruct q0 as [|k0 q0].
  - destruct c as [d|]; [|discriminate]. intros [= <-] Hl. cbn [lookup].
    destruct (String.eqb b k) eqn:E.
    + apply String.eqb_eq in E. subst b.
      rewrite (assoc_del_same k es (wf_node_unique sz es Hwf)). reflexivity.
    + rewrite (assoc_del_other k b es E). exact Hl.
  - destruct (os_remove c (k0 :: q0)) as [c'|] eqn:Hr; cbn [bind];
      [|discriminate].
    intros [= <-] Hl. cbn [lookup].
    destruct (String.eqb b k) eqn:E.
    + apply String.eqb_eq in E. subst b. rewrite assoc_put_same.
      rewrite Hc in Hl.
      apply (IH c c' q (wf_child sz es k c Hwf Hc) Hr Hl).
    + rewrite (assoc_put_other k b c' es E). exact Hl.
Qed.

Lemma makedirs_keeps_none : forall p n n' q,
  os_makedirs n p = Ok n' ->
  lookup n q = None -> (List.length p < List.length q)%nat ->
  lookup n' q = None.
Proof.
  induction p as [|k p IH]; intros n n' q; cbn [os_makedirs].
  - destruct n; [discriminate | intros [= <-] H _; exact H].
  - destruct n as [|sz es]; [discriminate|].
    destruct q as [|b q]; [discriminate|]. cbn [lookup List.length].
    destruct (assoc k es) as [c|] eqn:Hc.
    + destruct (os_makedirs c p) as [c'|] eqn:Hm; cbn [bind]; [|discriminate].
      intros [= <-] Hl Hlen. cbn [lookup].
      destruct (String.eqb b k) eqn:E.
      * apply String.eqb_eq in E. subst b. rewrite assoc_put_same.
        rewrite Hc in Hl. apply (IH c c' q Hm Hl). lia.
      * rewrite (assoc_put_other k b c' es E). exact Hl.
    + destruct (os_makedirs (Dir mkdir_st_size []) p) as [c'|] eqn:Hm;
        cbn [bind]; [|discriminate].
      intros [= <-] Hl Hlen. cbn [lookup].
      destruct (String.eqb b k) eqn:E.
      * apply String.eqb_eq in E. subst b. rewrite assoc_put_same.
        apply (IH _ c' q Hm); [|lia].
        destruct q; [cbn [List.length] in Hlen; lia | reflexivity].
      * rewrite (assoc_put_other k b c' es E). exact Hl.
Qed.

Section ParserWf.

Variable pd : pandas.
Variable output_dir : path.

Lemma materialize_wf : forall header key st st',
  Parser.materialize pd output_dir header key st = Ok st' ->
  wf_node (Parser.fs st) = true -> wf_node (Parser.fs st') = true.
Proof.
  intros header key st st'. unfold Parser.materialize.
  destruct (read_csv pd header (Parser.string_io st)) as [df|];
    cbn [bind]; [|discriminate].
  destruct (write_file _ _ _) as [fs'|] eqn:Hw; cbn [bind]; [|discriminate].
  intros [= <-] Hwf. cbn [Parser.fs]. apply (wf_write_file _ _ _ _ Hwf Hw).
Qed.

Lemma scan_wf : forall lines st st',
  Parser.scan pd output_dir st lines = Ok st' ->
  wf_node (Parser.fs st) = true -> wf_node (Parser.fs st') = true.
Proof.
  induction lines as [|l lines IH]; intros st st'; cbn [Parser.scan].
  - intros [= <-] H. exact H.
  - destruct (Parser.step pd output_dir st l) as [st1|] eqn:Hs; cbn [bind];
      [|discriminate].
    intros Hrest H. apply (IH st1 st' Hrest). revert Hs. unfold Parser.step.
    destruct (startswith "[" l).
    + destruct (Parser.key_open (Parser.current_key st)) as [key|].
      * destruct (Parser.materialize pd output_dir _ key st) as [st0|] eqn:Hm;
          cbn [bind]; [|discriminate].
        intros [= <-]. apply (materialize_wf _ _ _ _ Hm H).
      * cbn [bind]. intros [= <-]. exact H.
    + destruct (Parser.key_open (Parser.current_key st));
        intros [= <-]; exact H.
Qed.

Lemma process_content_wf : forall fs content fs',
  Parser._process_content pd output_dir fs content = Ok fs' ->
  wf_node fs = true -> wf_node fs' = true.
Proof.
  intros fs content fs' Hrun Hwf. revert Hrun.
  unfold Parser._process_content.
  destruct (Parser.scan pd output_dir (Parser.init fs) (splitlines content))
    as [st|] eqn:Hscan; cbn [bind]; [|discriminate].
  pose proof (scan_wf _ _ _ Hscan Hwf) as Hst.
  unfold Parser.finish.
  destruct (Parser.key_open (Parser.current_key st)) as [key|].
  - destruct (Parser.materialize pd output_dir HeaderInfer key st)
      as [st'|] eqn:Hm; cbn [bind]; [|discriminate].
    intros [= <-]. apply (materialize_wf _ _ _ _ Hm Hst).
  - cbn [bind]. intros [= <-]. exact Hst.
Qed.

End ParserWf.

Section ParserNone.

Variable pd : pandas.
Variable output_dir : path.
Variable q : path.

Hypothesis not_a_table :
  forall key, q <> os_path_join output_dir (key ++ ".tsv").

Let fine (fs : node) : Prop := wf_node fs = true /\ lookup fs q = None.

Lemma materialize_fine : forall header key st st',
  Parser.materialize pd output_dir header key st = Ok st' ->
  fine (Parser.fs st) -> fine (Parser.fs st').
Proof.
  unfold fine. intros header key st st'. unfold Parser.materialize.
  destruct (read_csv pd header (Parser.string_io st)) as [df|];
    cbn [bind]; [|discriminate].
  destruct (write_file _ _ _) as [fs'|] eqn:Hw; cbn [bind]; [|discriminate].
  intros [= <-] [Hwf Hl]. cbn [Parser.fs]. split.
  - apply (wf_write_file _ _ _ _ Hwf Hw).
  - apply (write_keeps_none _ _ _ _ _ Hw Hl (not_a_table key)).
Qed.

Lemma step_fine : forall st line st',
  Parser.step pd output_dir st line = Ok st' ->
  fine (Parser.fs st) -> fine (Parser.fs st').
Proof.
  intros st line st'. unfold Parser.step.
  destruct (startswith "[" line).
  - destruct (Parser.key_open (Parser.current_key st)) as [key|].
    + destruct (Parser.materialize pd output_dir _ key st) as [st1|] eqn:Hm;
        cbn [bind]; [|discriminate].
      intros [= <-] H. apply (materialize_fine _ _ _ _ Hm H).
    + cbn [bind]. intros [= <-] H. exact H.
  - destruct (Parser.key_open (Parser.current_key st));
      intros [= <-] H; exact H.
Qed.

Lemma scan_fine : forall lines st st',
  Parser.scan pd output_dir st lines = Ok st' ->
  fine (Parser.fs st) -> fine (Parser.fs st').
Proof.
  induction lines as [|l lines IH]; intros st st'; cbn [Parser.scan].
  - intros [= <-] H. exact H.
  - destruct (Parser.step pd output_dir st l) as [st1|] eqn:Hs; cbn [bind];
      [|discriminate].
    intros Hrest H. apply (IH st1 st' Hrest), (step_fine _ _ _ Hs H).
Qed.

Lemma process_content_fine : forall fs content fs',
  Parser._process_content pd output_dir fs content = Ok fs' ->
  wf_node fs = true -> lookup fs q = None ->
  wf_node fs' = true /\ lookup fs' q = None.
Proof.
  intros fs content fs' Hrun Hwf Hl. revert Hrun.
  unfold Parser._process_content.
  destruct (Parser.scan pd output_dir (Parser.init fs) (splitlines content))
    as [st|] eqn:Hscan; cbn [bind]; [|discriminate].
  assert (Hst : fine (Parser.fs st)).
  { apply (scan_fine _ _ _ Hscan). split; assumption. }
  unfold Parser.finish.
  destruct (Parser.key_open (Parser.current_key st)) as [key|].
  - destruct (Parser.materialize pd output_dir HeaderInfer key st)
      as [st'|] eqn:Hm; cbn [bind]; [|discriminate].
    intros [= <-]. apply (materialize_fine _ _ _ _ Hm Hst).
  - cbn [bind]. intros [= <-]. exact Hst.
Qed.

End ParserNone.

Lemma startswith_app_r : forall p a b,
  startswith p a = true -> startswith p (a ++ b) = true.
Proof.
  induction p as [|c p IH]; intros a b; [reflexivity|].
  destruct a as [|d a]; cbn [startswith append]; [discriminate|].
  intros H. apply andb_prop in H. destruct H as [Hc Hp].
  rewrite Hc. apply IH, Hp.
Qed.

Lemma endswith_prefix : forall p k s,
  endswith p s = true -> endswith p (k ++ s) = true.
Proof.
  intros p k s. unfold endswith. unfold str_rev at 2 4.
  rewrite str_rev_onto_app, (str_rev_onto_acc s (str_rev_onto k _)).
  apply startswith_app_r.
Qed.

Lemma path_str_last : forall r x,
  exists k, path_str (r ++ [x])%list = k ++ x.
Proof.
  unfold path_str. induction r as [|a r IH]; intros x.
  - exists EmptyString. reflexivity.
  - destruct (IH x) as (k & Hk). cbn [app str_join].
    destruct (r ++ [x])%list as [|b l] eqn:E.
    + destruct r; discriminate E.
    + rewrite Hk. exists (a ++ "/" ++ k). rewrite !str_app_assoc. reflexivity.
Qed.

Lemma gz_is_no_table : forall x key,
  endswith ".gz" x = true -> x <> key ++ ".tsv".
Proof.
  intros x key Hgz E. pose proof (endswith_app key ".tsv") as Ht.
  rewrite <- E in Ht. revert Hgz Ht. unfold endswith.
  destruct (str_rev x) as [|c r]; [discriminate|].
  change (str_rev ".gz") with "zg.". change (str_rev ".tsv") with "vst.".
  cbn [startswith].
  destruct (Ascii.eqb_spec "z" c) as [<-|]; [|discriminate].
  discriminate.
Qed.

Section ExtractGz.

Variable w : world.
Variable p : Params.

(** A member name that ends in .gz, and where its payload is written. *)
Variable gz_name : string.
Hypothesis gz_name_gz : endswith ".gz" gz_name = true.

Let gz_path : path :=
  os_path_join (os_path_join (ExtractAndProcessGeoDataset.output p) gz_name)
    gz_name.

Lemma extract_member_wf_gone : forall fs member fs',
  ExtractAndProcessGeoDataset.extract_member w p fs member = Ok fs' ->
  wf_node fs = true ->
  wf_node fs' = true
  /\ (lookup fs gz_path = None
      \/ os_path_basename (member_name member) = gz_name ->
      lookup fs' gz_path = None).
Proof.
  intros fs member fs'. unfold ExtractAndProcessGeoDataset.extract_member.
  set (file_name := os_path_basename (member_name member)).
  set (top := ExtractAndProcessGeoDataset.output p).
  destruct (os_makedirs fs (os_path_join top file_name)) as [fs1|] eqn:Hm;
    cbn [bind]; [|discriminate].
  destruct (write_file fs1 (os_path_join (os_path_join top file_name) file_name)
              (member_data member)) as [fs2|] eqn:Hw; cbn [bind];
    [|discriminate].
  intros Hrun Hwf.
  pose proof (wf_makedirs _ _ _ Hwf Hm) as Hwf1.
  pose proof (wf_write_file _ _ _ _ Hwf1 Hw) as Hwf2.
  destruct (string_dec file_name gz_name) as [Hsame|Hother].
  - (* the member is the one whose payload is looked at *)
    destruct (path_str_last (os_path_join top file_name) file_name) as (k & Hk).
    unfold os_path_join in Hrun, Hk at 1. unfold os_path_join in Hrun.
    rewrite Hk, (endswith_prefix ".gz" k file_name) in Hrun;
      [|rewrite Hsame; exact gz_name_gz].
    unfold ExtractAndProcessGeoDataset._decompress_and_split_gz in Hrun.
    destruct (read_file fs2 _) as [raw|]; cbn [bind] in Hrun;
      [|discriminate Hrun].
    destruct (gzip_read_decode w raw) as [text|]; cbn [bind] in Hrun;
      [|discriminate Hrun].
    destruct (os_remove fs2 _) as [fs3|] eqn:Hr; cbn [bind] in Hrun;
      [|discriminate Hrun].
    unfold ExtractAndProcessGeoDataset._process_content in Hrun.
    pose proof (wf_remove _ _ _ Hwf2 Hr) as Hwf3.
    pose proof (remove_gone _ _ _ Hwf2 Hr) as Hgone.
    destruct (process_content_fine (pd w) _ _ (fun key E =>
                gz_is_no_table file_name key
                  (eq_ind_r (fun s => endswith ".gz" s = true) gz_name_gz Hsame)
                  (proj2 (app_inj_tail _ _ _ _ E)))
                fs3 text fs' Hrun Hwf3 Hgone) as [Hwf' Hnone].
    split; [exact Hwf'|]. intros _. unfold gz_path. rewrite <- Hsame.
    exact Hnone.
  - (* another member: its directory is another one *)
    assert (Hq : forall x,
      gz_path <> os_path_join (os_path_join top file_name) x).
    { intros x E. unfold gz_path in E. apply join_inj in E.
      destruct E as [E _]. apply join_inj in E. destruct E as [_ E].
      congruence. }
    assert (H2 : lookup fs gz_path = None -> lookup fs2 gz_path = None).
    { intros Hl. apply (write_keeps_none _ _ _ _ _ Hw); [|apply Hq].
      apply (makedirs_keeps_none _ _ _ _ Hm Hl).
      unfold gz_path, os_path_join, top. rewrite !length_app.
      cbn [List.length]. lia. }
    destruct (endswith ".gz" (path_str _)).
    + unfold ExtractAndProcessGeoDataset._decompress_and_split_gz in Hrun.
      destruct (read_file fs2 _) as [raw|]; cbn [bind] in Hrun;
        [|discriminate Hrun].
      destruct (gzip_read_decode w raw) as [text|]; cbn [bind] in Hrun;
        [|discriminate Hrun].
      destruct (os_remove fs2 _) as [fs3|] eqn:Hr; cbn [bind] in Hrun;
        [|discriminate Hrun].
      unfold ExtractAndProcessGeoDataset._process_content in Hrun.
      pose proof (wf_remove _ _ _ Hwf2 Hr) as Hwf3.
      split.
      * apply (process_content_wf (pd w) _ fs3 text fs' Hrun Hwf3).
      * intros [Hl|E]; [|contradiction].
        apply (process_content_fine (pd w) _ _ (fun key => Hq (key ++ ".tsv"))
                 fs3 text fs' Hrun Hwf3).
        apply (remove_keeps_none _ _ _ _ Hwf2 Hr (H2 Hl)).
    + injection Hrun as <-. split; [exact Hwf2|].
      intros [Hl|E]; [exact (H2 Hl) | contradiction].
Qed.

End ExtractGz.

Lemma extract_members_gone : forall w p gz_name,
  endswith ".gz" gz_name = true ->
  forall members fs fs',
    ExtractAndProcessGeoDataset.extract_members w p fs members = Ok fs' ->
    wf_node fs = true ->
    wf_node fs' = true
    /\ (lookup fs
          (os_path_join
             (os_path_join (ExtractAndProcessGeoDataset.output p) gz_name)
             gz_name) = None
        \/ (exists m, In m members
                      /\ os_path_basename (member_name m) = gz_name) ->
        lookup fs'
          (os_path_join
             (os_path_join (ExtractAndProcessGeoDataset.output p) gz_name)
             gz_name) = None).
Proof.
  intros w p gz_name Hgz.
  induction members as [|m members IH]; intros fs fs';
    cbn [ExtractAndProcessGeoDataset.extract_members].
  - intros [= <-] Hwf. split; [exact Hwf|].
    intros [H|(m & [] & _)]. exact H.
  - destruct (ExtractAndProcessGeoDataset.extract_member w p fs m)
      as [fs1|] eqn:Hm; cbn [bind]; [|discriminate].
    intros Hrest Hwf.
    destruct (extract_member_wf_gone w p gz_name Hgz fs m fs1 Hm Hwf)
      as [Hwf1 Hstep].
    destruct (IH fs1 fs' Hrest Hwf1) as [Hwf' Hall].
    split; [exact Hwf'|]. intros H. apply Hall.
    destruct H as [H|(m' & [<-|Hin] & Hname)].
    + left. apply Hstep. left. exact H.
    + left. apply Hstep. right. exact Hname.
    + right. exists m'. split; assumption.
Qed.

(** X18: on a tree without repeated names, when the Extract action
    returns, the compressed payload of every member whose base name ends
    in .gz is gone from the directory of that member: only what the
    parser wrote is left of it. *)
Theorem extract_removes_compressed_payload :
  forall (w : world) (p : Params) (fs fs' : node),
    wf_node fs = true ->
    ExtractAndProcessGeoDataset.run w p fs = Ok fs' ->
    exists tar members,
      read_file fs (DownloadGeoDataset.output p) = Ok tar
      /\ tarfile_getmembers w tar = Ok members
      /\ forall m,
          In m members ->
          endswith ".gz" (os_path_basename (member_name m)) = true ->
          os_path_exists fs'
            (os_path_join
               (os_path_join (ExtractAndProcessGeoDataset.output p)
                  (os_path_basename (member_name m)))
               (os_path_basename (member_name m))) = false.
Proof.
  intros w p fs fs' Hwf. unfold ExtractAndProcessGeoDataset.run.
  destruct (os_makedirs fs _) as [fs1|] eqn:Hm; cbn [bind]; [|discriminate].
  unfold ExtractAndProcessGeoDataset.requires.
  destruct (read_file fs1 (DownloadGeoDataset.output p)) as [tar|] eqn:Hr;
    cbn [bind]; [|discriminate].
  destruct (tarfile_getmembers w tar) as [members|] eqn:Ht; cbn [bind];
    [|discriminate].
  intros Hx. exists tar, members. split; [|split; [exact Ht|]].
  - apply read_file_lookup. apply read_file_lookup in Hr.
    apply (makedirs_file_before _ _ _ _ _ Hm Hr).
  - intros m Hin Hgz.
    destruct (extract_members_gone w p _ Hgz members fs1 fs' Hx
                (wf_makedirs _ _ _ Hwf Hm)) as [_ Hgone].
    unfold os_path_exists. rewrite Hgone; [reflexivity|].
    right. exists m. split; [exact Hin | reflexivity].
Qed.

(** The payload GSM1.txt.gz is not in its directory after the extraction. *)
Lemma extract_removes_compressed_payload_witness :
  os_path_exists extracted_root
    ["data"; "GSE68849"; "GSE68nnn"; "GSM1.txt.gz"; "GSM1.txt.gz"] = false.
Proof.
  destruct (extract_removes_compressed_payload (one_member data_only_text)
              default_params fetched_root extracted_root eq_refl
              extract_one_member) as (tar & members & Hr & Ht & Hall).
  injection Hr as <-. injection Ht as <-.
  apply (Hall {| member_name := "GSM1.txt.gz"; member_data := "GZ" |});
    [left; reflexivity | reflexivity].
Defined.

(** ** A member that is not compressed *)





Section Diverge.

(** Two paths that part after [r]: one goes on with [a], the other with
    [b]. *)
Variable a b : string.
Hypothesis parted : String.eqb b a = false.




Section ParserDiverge.

Variable pd : pandas.
Variable r : path.
Variable t : path.


End ParserDiverge.

End Diverge.





Section NotCompressed.

Variable w : world.
Variable p : Params.

(** The base name of a member that is not compressed. *)
Variable plain : string.
Hypothesis plain_not_gz : endswith ".gz" plain = false.




End NotCompressed.



